(** * Programas: the radar of webcam light readings and the temperature monitor

    A shallow embedding of [Tela_grafica_sensor_luz.py] (class [RadarLuxCam])
    and [Tela_grafica_temperatura.py] (class [App]).

    Conventions of the embedding:
    - a Python [float] is idealised as a rational ([Q]); the canvas
      coordinates, which go through [math.cos] and [math.sin], are reals ([R]);
    - a Python [int] is a [Z]; [//] is [Z.div] and [%] is [Z.modulo];
    - a method of a window object is a function from the state of the object
      to the state afterwards and a result, which is a value or a raised
      exception;
    - what the environment supplies (camera frames, the random generator,
      the clock) is an argument of the step that consumes it. *)

From Stdlib Require Import ZArith QArith Qround Qabs Reals Qreals Psatz.
From Stdlib Require Import Ascii String List Sorted.
From Stdlib Require DecimalString HexadecimalString.
From stdpp Require Import base list.
Import ListNotations.

(** ** Python numerics over the rationals *)

Module PyNum.

Local Open Scope string_scope.

(** [int(x)] for a float [x]: truncation toward zero. *)
Definition py_int (q : Q) : Z :=
  if Qle_bool 0 q then Qfloor q else Qceiling q.

(** Rounding to the nearest integer, ties to even: what [round] and the
    [f] format do. *)
Definition round_half_even (q : Q) : Z :=
  let f := Qfloor q in
  match (q - inject_Z f) ?= (1 # 2) with
  | Lt => f
  | Gt => (f + 1)%Z
  | Eq => if Z.even f then f else (f + 1)%Z
  end%Q.

(** [round(x, 1)]. *)
Definition py_round1 (q : Q) : Q :=
  inject_Z (round_half_even (q * 10)) / 10.

(** [max(lo, min(hi, g))] on integers. *)
Definition clamp (lo hi g : Z) : Z := Z.max lo (Z.min hi g).

Definition string_of_Z (z : Z) : string :=
  DecimalString.NilZero.string_of_int (Z.to_int z).

(** Right alignment in a field of [width] characters. *)
Definition rjust (width : nat) (c : Ascii.ascii) (s : string) : string :=
  String.append
    (string_of_list_ascii (repeat c (width - String.length s))) s.

(** The digits of the format [.0f]: the sign is kept for a negative value
    that rounds to zero, as Python does. *)
Definition format_0f (q : Q) : string :=
  let k := round_half_even q in
  if Qle_bool 0 q then string_of_Z k
  else String.append "-" (string_of_Z (Z.abs k)).

(** [f"{x:4.0f}"]. *)
Definition format_4_0f (q : Q) : string := rjust 4 " "%char (format_0f q).

(** [f"{x:.1f}"]. *)
Definition format_1f (q : Q) : string :=
  let k := Z.abs (round_half_even (q * 10)) in
  let digits :=
    String.append (string_of_Z (k / 10))
                  (String.append "." (string_of_Z (k mod 10))) in
  if Qle_bool 0 q then digits else String.append "-" digits.

(** [f"{g:02x}"] for [g >= 0]. *)
Definition format_02x (g : Z) : string :=
  rjust 2 "0"%char
    (HexadecimalString.NilZero.string_of_uint (N.to_hex_uint (Z.to_N g))).

End PyNum.

(** ** [collections.deque] with a [maxlen] *)

Module Deque.

Record deque (A : Type) := Deque { maxlen : nat; items : list A }.
Arguments Deque {A} _ _.
Arguments maxlen {A} _.
Arguments items {A} _.

Section ops.
Context {A : Type}.

(** [deque(maxlen=n)]. *)
Definition new (n : nat) : deque A := Deque n [].

(** [d.append(x)]: the value goes to the right end and, when the deque
    then holds more than [maxlen] values, the leftmost one is dropped. *)
Definition append (d : deque A) (x : A) : deque A :=
  let l := items d ++ [x] in
  Deque (maxlen d) (if Nat.ltb (maxlen d) (length l) then tail l else l).

(** Successive appends, leftmost value first. *)
Definition extend (d : deque A) (xs : list A) : deque A :=
  fold_left append xs d.

(** [d[-1]]. *)
Definition last_item (d : deque A) : option A := last (items d).

Definition bounded (d : deque A) : Prop := length (items d) <= maxlen d.
End ops.

End Deque.

(** ** The monitor of temperature: class [App] *)

Module Temperatura.

Import PyNum Deque.
Local Open Scope Q_scope.

Definition INTERVALO_S : Z := 1.
Definition MAX_PONTOS : nat := 120.

(** The fields of the window that the methods read and write. [line_data]
    is what [self.line.set_data] last received. *)
Record App := mkApp {
  temps : deque Q;
  times : deque Q;
  start_time : Q;
  valor_lbl : string;
  line_data : list Q * list Q
}.

(** [__init__], at clock reading [now]. *)
Definition init (now : Q) : App :=
  {| temps := new MAX_PONTOS;
     times := new MAX_PONTOS;
     start_time := now;
     valor_lbl := "-- °C"%string;
     line_data := ([], []) |}.

(** [random.uniform(a, b)] is [a + (b - a) * random()]; [u] is the draw
    of [random()], a number of the interval from 0 (included) to 1
    (excluded). *)
Definition uniform (a b u : Q) : Q := a + (b - a) * u.

Definition unit_draw (u : Q) : Prop := 0 <= u /\ u < 1.

(** [ler_sensor]. *)
Definition ler_sensor (u : Q) : Q := py_round1 (uniform 24 30 u).

(** What one turn of the loop of [aquisicao] takes from the environment:
    the draw of the random generator and the reading of the clock. *)
Record Leitura := mkLeitura { draw : Q; clock : Q }.

(** One turn of the [while True] of [aquisicao]. *)
Definition aquisicao_iter (app : App) (inp : Leitura) : App :=
  let temp := ler_sensor (draw inp) in
  let t := clock inp - start_time app in
  {| temps := append (temps app) temp;
     times := append (times app) t;
     start_time := start_time app;
     valor_lbl := valor_lbl app;
     line_data := line_data app |}.

(** The loop of [aquisicao] never exits; [aquisicao] gives the window after
    the turns that consumed [inps]. *)
Definition aquisicao (app : App) (inps : list Leitura) : App :=
  fold_left aquisicao_iter inps app.

(** [update_gui]. *)
Definition update_gui (app : App) : App :=
  match last_item (temps app) with
  | Some temp_atual =>
      {| temps := temps app;
         times := times app;
         start_time := start_time app;
         valor_lbl := String.append (format_1f temp_atual) " °C"%string;
         line_data := (items (times app), items (temps app)) |}
  | None => app
  end.

(** Everything the program does to a window once it is built. *)
Inductive Action :=
| Aquisicao (inp : Leitura)
| UpdateGui.

Definition step (app : App) (a : Action) : App :=
  match a with
  | Aquisicao inp => aquisicao_iter app inp
  | UpdateGui => update_gui app
  end.

Definition run (app : App) (acts : list Action) : App := fold_left step acts app.

(** An action whose draw, if it has one, is a number that [random()] can
    give. *)
Definition action_ok (a : Action) : Prop :=
  match a with
  | Aquisicao inp => unit_draw (draw inp)
  | UpdateGui => True
  end.

(** The interval of the simulated temperatures. *)
Definition in_range (t : Q) : Prop := 24 <= t /\ t <= 30.

(** The inputs of the turns of [aquisicao] among the actions, in order. *)
Fixpoint inputs_of (acts : list Action) : list Leitura :=
  match acts with
  | [] => []
  | Aquisicao inp :: rest => inp :: inputs_of rest
  | UpdateGui :: rest => inputs_of rest
  end.

(** *** The two threads

    [aquisicao] runs in a thread of its own while [update_gui] runs in the
    main loop, so a refresh can come between the two appends of a turn. A
    turn is two steps: lines 67 to 69 take the reading and the time and
    append the reading to [temps]; line 70 appends the time to [times].
    [pending] holds the time of a turn whose second step has not run
    yet. *)
Record Threads := mkThreads { window : App; pending : option Q }.

Inductive Micro :=
| TurnBegins (inp : Leitura)
| TurnEnds
| Refresh.

(** A step that the thread of [aquisicao] is not at leaves everything as
    it is. *)
Definition micro_step (w : Threads) (m : Micro) : Threads :=
  let app := window w in
  match m with
  | TurnBegins inp =>
      match pending w with
      | None =>
          let temp := ler_sensor (draw inp) in
          let t := clock inp - start_time app in
          mkThreads {| temps := append (temps app) temp;
                       times := times app;
                       start_time := start_time app;
                       valor_lbl := valor_lbl app;
                       line_data := line_data app |}
                    (Some t)
      | Some _ => w
      end
  | TurnEnds =>
      match pending w with
      | Some t =>
          mkThreads {| temps := temps app;
                       times := append (times app) t;
                       start_time := start_time app;
                       valor_lbl := valor_lbl app;
                       line_data := line_data app |}
                    None
      | None => w
      end
  | Refresh => mkThreads (update_gui app) (pending w)
  end.

Definition micro_run (w : Threads) (ms : list Micro) : Threads :=
  fold_left micro_step ms w.

Definition threads_init (now : Q) : Threads := mkThreads (init now) None.

(** What holds of the two buffers and of the data of the line at every
    step of the two threads. *)
Definition threads_inv (w : Threads) : Prop :=
  let n := length (items (temps (window w))) in
  let m := length (items (times (window w))) in
  maxlen (temps (window w)) = MAX_PONTOS /\
  maxlen (times (window w)) = MAX_PONTOS /\
  (n <= MAX_PONTOS)%nat /\
  (m <= MAX_PONTOS)%nat /\
  (match pending w with
   | None => n = m
   | Some _ => n = Nat.min (m + 1) MAX_PONTOS
   end) /\
  (length (fst (line_data (window w))) <= length (snd (line_data (window w)))
   <= length (fst (line_data (window w))) + 1)%nat.

End Temperatura.

(** ** The radar: class [RadarLuxCam] *)

Module Radar.

Import PyNum.
Local Open Scope Z_scope.

(** *** Constants of the layout *)

Definition SIZE : Z := 480.
Definition MARGEM : Z := 12.
Definition RAIO : Z := SIZE / 2 - MARGEM.
Definition RINGS : Z := 4.

(** *** The canvas

    An item is what [create_oval] or [create_line] received: the four
    coordinates, the options that the program sets, and the tags. *)

Inductive shape :=
| Oval (x0 y0 x1 y1 : R)
| Line (x0 y0 x1 y1 : R).

Record item := mkItem {
  geom : shape;
  fill : option string;
  outline : option string;
  width : option Z;
  tags : list string
}.

Definition has_tag (tag : string) (it : item) : bool :=
  existsb (String.eqb tag) (tags it).

(** *** The window *)

(** The fields that the methods read and write. A variable of the control
    panel holds the integer that its [get] returns. [timers] holds the
    delays of the calls [self.after(ms, self._update)] that have not fired
    yet, the oldest first. *)
Record RadarLuxCam := mkRadar {
  amplitude_var : Z;
  sweep_var : Z;
  interval_var : Z;
  readings : list Q;
  angle : Z;
  running : bool;
  cap_opened : bool;
  lux_label : string;
  canvas : list item;
  timers : list Z
}.

Definition set_amplitude_var (v : Z) (s : RadarLuxCam) : RadarLuxCam :=
  mkRadar v (sweep_var s) (interval_var s) (readings s) (angle s) (running s)
          (cap_opened s) (lux_label s) (canvas s) (timers s).

Definition set_sweep_var (v : Z) (s : RadarLuxCam) : RadarLuxCam :=
  mkRadar (amplitude_var s) v (interval_var s) (readings s) (angle s) (running s)
          (cap_opened s) (lux_label s) (canvas s) (timers s).

Definition set_interval_var (v : Z) (s : RadarLuxCam) : RadarLuxCam :=
  mkRadar (amplitude_var s) (sweep_var s) v (readings s) (angle s) (running s)
          (cap_opened s) (lux_label s) (canvas s) (timers s).

Definition set_readings (v : list Q) (s : RadarLuxCam) : RadarLuxCam :=
  mkRadar (amplitude_var s) (sweep_var s) (interval_var s) v (angle s) (running s)
          (cap_opened s) (lux_label s) (canvas s) (timers s).

Definition set_angle (v : Z) (s : RadarLuxCam) : RadarLuxCam :=
  mkRadar (amplitude_var s) (sweep_var s) (interval_var s) (readings s) v (running s)
          (cap_opened s) (lux_label s) (canvas s) (timers s).

Definition set_running (v : bool) (s : RadarLuxCam) : RadarLuxCam :=
  mkRadar (amplitude_var s) (sweep_var s) (interval_var s) (readings s) (angle s) v
          (cap_opened s) (lux_label s) (canvas s) (timers s).

Definition set_lux_label (v : string) (s : RadarLuxCam) : RadarLuxCam :=
  mkRadar (amplitude_var s) (sweep_var s) (interval_var s) (readings s) (angle s)
          (running s) (cap_opened s) v (canvas s) (timers s).

Definition set_canvas (v : list item) (s : RadarLuxCam) : RadarLuxCam :=
  mkRadar (amplitude_var s) (sweep_var s) (interval_var s) (readings s) (angle s)
          (running s) (cap_opened s) (lux_label s) v (timers s).

Definition set_timers (v : list Z) (s : RadarLuxCam) : RadarLuxCam :=
  mkRadar (amplitude_var s) (sweep_var s) (interval_var s) (readings s) (angle s)
          (running s) (cap_opened s) (lux_label s) (canvas s) v.

(** *** Methods as computations on the window

    A method takes the window and gives the window afterwards together with
    its outcome. What a method wrote before it raised stays written. *)

Inductive exn :=
| IndexError
| ZeroDivisionError
| RuntimeError (msg : string).

Inductive result (A : Type) :=
| Ok (a : A)
| Raise (e : exn).
Arguments Ok {A} a.
Arguments Raise {A} e.

Definition M (A : Type) : Type := RadarLuxCam -> RadarLuxCam * result A.

Definition retM {A} (a : A) : M A := fun s => (s, Ok a).

Definition bindM {A B} (c : M A) (k : A -> M B) : M B :=
  fun s =>
    match c s with
    | (s', Ok a) => k a s'
    | (s', Raise e) => (s', Raise e)
    end.

Definition raise {A} (e : exn) : M A := fun s => (s, Raise e).

Definition gets {A} (f : RadarLuxCam -> A) : M A := fun s => (s, Ok (f s)).

Definition modify (f : RadarLuxCam -> RadarLuxCam) : M unit :=
  fun s => (f s, Ok tt).

Definition lift {A} (r : result A) : M A := fun s => (s, r).

Declare Scope radar_scope.
Delimit Scope radar_scope with radar.
Notation "x <- c ;; k" := (bindM c (fun x => k))
  (at level 100, c at next level, right associativity) : radar_scope.
Notation "c ;; k" := (bindM c (fun _ => k))
  (at level 100, right associativity) : radar_scope.
Local Open Scope radar_scope.

(** A [for] loop: the body runs on each value in turn, and the loop ends at
    the first exception. *)
Fixpoint for_each {A} (xs : list A) (body : A -> M unit) : M unit :=
  match xs with
  | [] => retM tt
  | x :: xs' => body x ;; for_each xs' body
  end.

(** *** Python values *)

(** [l[i] = v] on a list: a negative index counts from the end, and an
    index out of range raises [IndexError]. *)
Definition list_setitem {A} (l : list A) (i : Z) (v : A) : result (list A) :=
  let n := Z.of_nat (length l) in
  let j := if i <? 0 then i + n else i in
  if (j <? 0) || (n <=? j) then Raise IndexError
  else Ok (<[Z.to_nat j := v]> l).

(** [range(start, stop, step)] for a positive [step]. *)
Definition py_range (start stop step : Z) : list Z :=
  map (fun i => start + Z.of_nat i * step)
      (seq 0 (Z.to_nat ((stop - start + step - 1) / step))).

(** [enumerate(l)]. *)
Definition enumerate {A} (l : list A) : list (nat * A) :=
  combine (seq 0 (length l)) l.

(** [math.radians]. *)
Definition radians (deg : R) : R := (deg * (PI / 180))%R.

(** *** The canvas methods *)

(** [self.canvas.delete(tag)]. *)
Definition canvas_delete (tag : string) : M unit :=
  modify (fun s =>
    set_canvas (List.filter (fun it => negb (has_tag tag it)) (canvas s)) s).

Definition canvas_create (it : item) : M unit :=
  modify (fun s => set_canvas (canvas s ++ [it]) s).

(** *** The methods of [RadarLuxCam] *)

Definition grid_colour : string := "#003300".

(** [_draw_grid]. *)
Definition _draw_grid : M unit :=
  let cx := SIZE / 2 in
  let cy := cx in
  let step := RAIO / RINGS in
  for_each (py_range step (RAIO + 1) step) (fun r =>
    canvas_create
      (mkItem (Oval (IZR (cx - r)) (IZR (cy - r)) (IZR (cx + r)) (IZR (cy + r)))
              None (Some grid_colour) None [])) ;;
  canvas_create
    (mkItem (Line (IZR cx) (IZR (cy - RAIO)) (IZR cx) (IZR (cy + RAIO)))
            (Some grid_colour) None None []) ;;
  canvas_create
    (mkItem (Line (IZR (cx - RAIO)) (IZR cy) (IZR (cx + RAIO)) (IZR cy))
            (Some grid_colour) None None []).

(** [_build_ui], as far as the fields of the window go: the label of the
    reading and the canvas with its grid. *)
Definition _build_ui : M unit :=
  modify (set_lux_label "-- lux") ;;
  modify (set_canvas []) ;;
  _draw_grid.

(** [__init__]; [opened] is what [self.cap.isOpened()] answers. *)
Definition init (opened : bool) : RadarLuxCam * result unit :=
  let s0 := mkRadar 1000 2 60 (repeat 0%Q 360) 0 false opened "" [] [] in
  if negb opened
  then (s0, Raise (RuntimeError "Não foi possível abrir a webcam (device 0)"))
  else _build_ui s0.

(** What [self.cap.read()] gives on one call: the flag [ret] and, for the
    frame, the number that [float(np.mean(cv2.cvtColor(frame, ...)))] makes
    of it. *)
Record CamRead := mkCamRead { ret : bool; mean_intensity : Q }.

(** [_read_lux_from_camera]. *)
Definition _read_lux_from_camera (cam : CamRead) : M Q :=
  if negb (ret cam) then retM 0%Q
  else
    amp <- gets amplitude_var ;;
    let lux := ((mean_intensity cam / 255) * inject_Z amp)%Q in
    retM lux.

(** The value that [_read_lux_from_camera] returns when the amplitude is
    [amp]. *)
Definition lux_read (cam : CamRead) (amp : Z) : Q :=
  if negb (ret cam) then 0%Q
  else ((mean_intensity cam / 255) * inject_Z amp)%Q.

(** [_schedule_next]. *)
Definition _schedule_next : M unit :=
  running_now <- gets running ;;
  if running_now
  then modify (fun s => set_timers (timers s ++ [interval_var s]) s)
  else retM tt.

(** [start]. *)
Definition start : M unit :=
  running_now <- gets running ;;
  if negb running_now
  then modify (set_running true) ;; _schedule_next
  else retM tt.

(** [stop]. *)
Definition stop : M unit := modify (set_running false).

(** [reset]. *)
Definition reset : M unit :=
  modify (set_readings (repeat 0%Q 360)) ;;
  canvas_delete "dynamic" ;;
  modify (set_angle 0).

(** The green component that [_lux_to_color] computes, for an amplitude
    that is not zero. *)
Definition green (amp : Z) (lux : Q) : Z :=
  let g := py_int (50 + 205 * lux / inject_Z amp)%Q in
  clamp 0 255 g.

(** [f"#00{g:02x}00"]. *)
Definition colour_of_green (g : Z) : string :=
  String.append "#00" (String.append (format_02x g) "00").

(** [_lux_to_color]. The division raises when the amplitude is zero. *)
Definition _lux_to_color (lux : Q) : M string :=
  amp <- gets amplitude_var ;;
  if amp =? 0 then raise ZeroDivisionError
  else
    let g := green amp lux in
    retM (colour_of_green g).

(** The radius and the centre of the point of [_draw_points] for the
    reading [lux] at [ang] degrees. *)
Definition point_radius (amp : Z) (lux : Q) : Q :=
  ((lux / inject_Z amp) * inject_Z RAIO)%Q.

Definition point_x (amp : Z) (ang : nat) (lux : Q) : R :=
  let cx := SIZE / 2 in
  let theta := radians (IZR (Z.of_nat ang)) in
  (IZR cx + Q2R (point_radius amp lux) * cos theta)%R.

Definition point_y (amp : Z) (ang : nat) (lux : Q) : R :=
  let cy := SIZE / 2 in
  let theta := radians (IZR (Z.of_nat ang)) in
  (IZR cy - Q2R (point_radius amp lux) * sin theta)%R.

(** The item that [_draw_points] creates at a centre. *)
Definition point_item (x y : R) (color : string) : item :=
  mkItem (Oval (x - 2) (y - 2) (x + 2) (y + 2))%R
         (Some color) (Some color) None ["dynamic"%string].

(** The body of the loop of [_draw_points]. *)
Definition draw_point (amp : Z) (p : nat * Q) : M unit :=
  let (ang, lux) := p in
  if Qle_bool lux 0 then retM tt
  else if amp =? 0 then raise ZeroDivisionError
  else
    let x := point_x amp ang lux in
    let y := point_y amp ang lux in
    color <- _lux_to_color lux ;;
    canvas_create (point_item x y color).

(** The items that the loop of [_draw_points] creates for the readings
    [rs], when the amplitude is not zero: one for each positive reading. *)
Definition points_of (amp : Z) (rs : list (nat * Q)) : list item :=
  flat_map (fun p : nat * Q =>
              let (ang, lux) := p in
              if Qle_bool lux 0 then []
              else [point_item (point_x amp ang lux) (point_y amp ang lux)
                               (colour_of_green (green amp lux))]) rs.

(** [_draw_points]. *)
Definition _draw_points : M unit :=
  amp <- gets amplitude_var ;;
  rs <- gets readings ;;
  for_each (enumerate rs) (draw_point amp).

(** The item that [_draw_beam] creates when the cursor is at [a] degrees. *)
Definition beam_item (a : Z) : item :=
  let cx := SIZE / 2 in
  let cy := cx in
  let theta := radians (IZR a) in
  let x := (IZR cx + IZR RAIO * cos theta)%R in
  let y := (IZR cy - IZR RAIO * sin theta)%R in
  mkItem (Line (IZR cx) (IZR cy) x y) (Some "#00ff00"%string) None (Some 2)
         ["dynamic"%string].

(** [_draw_beam]. *)
Definition _draw_beam : M unit :=
  a <- gets angle ;;
  canvas_create (beam_item a).

(** [_update]; [cam] is what the camera gives if it is read. *)
Definition _update (cam : CamRead) : M unit :=
  running_now <- gets running ;;
  if negb running_now then retM tt
  else
    lux_val <- _read_lux_from_camera cam ;;
    rs <- gets readings ;;
    a <- gets angle ;;
    rs' <- lift (list_setitem rs a lux_val) ;;
    modify (set_readings rs') ;;
    modify (set_lux_label (String.append (format_4_0f lux_val) " lux")) ;;
    canvas_delete "dynamic" ;;
    _draw_points ;;
    _draw_beam ;;
    a <- gets angle ;;
    sweep <- gets sweep_var ;;
    modify (set_angle ((a + sweep) mod 360)) ;;
    _schedule_next.

(** *** The main loop

    What can happen to a window while [mainloop] runs: a button is pressed,
    a scale of the control panel is moved, or one of the pending timers
    fires and calls [_update]. An exception raised by a callback is
    reported by Tk and the loop goes on with the window as the callback
    left it. *)

Inductive Event :=
| PressStart
| PressStop
| PressReset
| MoveAmplitude (v : Z)
| MoveSweep (v : Z)
| MoveInterval (v : Z)
| TimerFires (i : nat) (cam : CamRead).

Definition handle (s : RadarLuxCam) (e : Event) : RadarLuxCam :=
  match e with
  | PressStart => fst (start s)
  | PressStop => fst (stop s)
  | PressReset => fst (reset s)
  | MoveAmplitude v => set_amplitude_var v s
  | MoveSweep v => set_sweep_var v s
  | MoveInterval v => set_interval_var v s
  | TimerFires i cam =>
      match timers s !! i with
      | Some _ => fst (_update cam (set_timers (delete i (timers s)) s))
      | None => s
      end
  end.

Definition mainloop (s : RadarLuxCam) (es : list Event) : RadarLuxCam :=
  fold_left handle es s.

(** A run in which Start is never pressed on a stopped radar that still has
    a pending timer, that is, between a press of Stop and the firing of the
    timer that was pending then. *)
Fixpoint no_restart_race (s : RadarLuxCam) (es : list Event) : Prop :=
  match es with
  | [] => True
  | e :: es' =>
      (e = PressStart -> running s = false -> timers s = []) /\
      no_restart_race (handle s e) es'
  end.

(** An event that the control panel can produce: a scale gives a value of
    its range, from [from_] to [to]. *)
Definition ui_event (e : Event) : Prop :=
  match e with
  | MoveAmplitude v => 100 <= v <= 5000
  | MoveSweep v => 1 <= v <= 10
  | MoveInterval v => 20 <= v <= 200
  | _ => True
  end.

(** The window that [RadarLuxCam()] builds when the camera opens. *)
Definition initial : RadarLuxCam := fst (init true).

(** *** Predicates on windows *)

(** The cursor is a degree of the circle and there is one reading for
    each degree. *)
Definition wf (s : RadarLuxCam) : Prop :=
  0 <= angle s <= 359 /\ length (readings s) = 360%nat.

Definition dynamic_items (s : RadarLuxCam) : list item :=
  List.filter (has_tag "dynamic") (canvas s).

Definition static_items (s : RadarLuxCam) : list item :=
  List.filter (fun it => negb (has_tag "dynamic" it)) (canvas s).

End Radar.

(** * Properties *)

(** ** The rolling buffer *)

Section DequeFacts.
Import Deque.
Context {A : Type}.
Implicit Types (d : deque A) (x : A) (xs l : list A).

Lemma maxlen_append d x : maxlen (append d x) = maxlen d.
Proof. reflexivity. Qed.

Lemma maxlen_extend d xs : maxlen (extend d xs) = maxlen d.
Proof.
  revert d. induction xs as [|x xs IH]; intros d; [reflexivity|].
  unfold extend in *. simpl. now rewrite IH.
Qed.

Lemma extend_snoc d xs x : extend d (xs ++ [x]) = append (extend d xs) x.
Proof. unfold extend. now rewrite fold_left_app. Qed.

(** Dropping the head of what remains after [j] drops, once one more value
    stands at the right end. *)
Lemma tail_drop_snoc l x j :
  j <= length l -> tail (drop j l ++ [x]) = drop (S j) (l ++ [x]).
Proof.
  revert j. induction l as [|y l IH]; intros j Hj; simpl in *.
  - assert (j = 0) by lia. subst. reflexivity.
  - destruct j as [|j]; simpl.
    + now rewrite drop_0.
    + apply IH. lia.
Qed.

(** One append keeps the last [maxlen] values of what was appended to. *)
Lemma items_append_drop d x :
  bounded d ->
  items (append d x) =
  drop (length (items d ++ [x]) - maxlen d) (items d ++ [x]).
Proof.
  unfold bounded, append. intros Hb. simpl.
  rewrite length_app. simpl.
  destruct (Nat.ltb_spec (maxlen d) (length (items d) + 1)) as [Hlt|Hge].
  - assert (Hone : length (items d) + 1 - maxlen d = 1) by lia.
    rewrite Hone. now destruct (items d ++ [x]).
  - assert (Hzero : length (items d) + 1 - maxlen d = 0) by lia.
    now rewrite Hzero.
Qed.

Lemma bounded_append d x : bounded d -> bounded (append d x).
Proof.
  intros Hb. unfold bounded. rewrite (items_append_drop _ _ Hb), maxlen_append.
  rewrite length_drop, length_app. simpl. unfold bounded in Hb. lia.
Qed.

Lemma bounded_extend d xs : bounded d -> bounded (extend d xs).
Proof.
  revert d. induction xs as [|x xs IH]; intros d Hb; [assumption|].
  apply (IH (append d x)). now apply bounded_append.
Qed.

(** After any appends the buffer holds the last [maxlen] values of the old
    content followed by the appended values. *)
Lemma items_extend_drop d xs :
  bounded d ->
  items (extend d xs) =
  drop (length (items d ++ xs) - maxlen d) (items d ++ xs).
Proof.
  intros Hb. induction xs as [|x xs IH] using rev_ind.
  - unfold extend, bounded in *. simpl. rewrite app_nil_r.
    assert (Hz : length (items d) - maxlen d = 0) by lia.
    now rewrite Hz.
  - rewrite extend_snoc.
    rewrite items_append_drop by now apply bounded_extend.
    rewrite maxlen_extend, IH.
    set (L := items d ++ xs).
    set (j := length L - maxlen d).
    rewrite app_assoc. fold L.
    rewrite !length_app, length_drop. simpl.
    destruct (Nat.le_gt_cases (length L) (maxlen d)) as [Hle|Hgt].
    + assert (Hj : j = 0) by (unfold j; lia). rewrite Hj, drop_0. f_equal. lia.
    + assert (Hone : length L - j + 1 - maxlen d = 1) by (unfold j; lia).
      rewrite Hone. change (drop 1 (drop j L ++ [x])) with (tail (drop j L ++ [x])).
      rewrite tail_drop_snoc by (unfold j; lia).
      f_equal. unfold j. lia.
Qed.

End DequeFacts.

(** ** The buffers of the temperature monitor *)

Section TemperaturaFacts.
Import Deque Temperatura.

Lemma temps_aquisicao app inps :
  temps (aquisicao app inps) =
  extend (temps app) (map (fun i => ler_sensor (draw i)) inps).
Proof.
  revert app. induction inps as [|i inps IH]; intros app; [reflexivity|].
  unfold aquisicao in *. simpl. now rewrite IH.
Qed.

Lemma times_aquisicao app inps :
  times (aquisicao app inps) =
  extend (times app) (map (fun i => (clock i - start_time app)%Q) inps).
Proof.
  revert app. induction inps as [|i inps IH]; intros app; [reflexivity|].
  unfold aquisicao in *. simpl. now rewrite IH.
Qed.

End TemperaturaFacts.

(** C1. A rolling buffer of capacity [N] that received [N + k] values holds
    exactly the last [N] of them, in the order of insertion: the values
    after the first [k]. So the buffer of capacity 120 that received the
    samples 1 to 150 holds the samples 31 to 150, and the buffer [temps] of
    the monitor holds, after 150 turns of [aquisicao], the readings of the
    turns 31 to 150. *)
Theorem C1_rolling_buffer_keeps_last :
  (forall (A : Type) (N k : nat) (xs : list A),
      length xs = N + k ->
      Deque.items (Deque.extend (Deque.new N) xs) = drop k xs /\
      length (Deque.items (Deque.extend (Deque.new N) xs)) = N) /\
  Deque.items (Deque.extend (Deque.new 120) (seq 1 150)) = seq 31 120 /\
  (forall (now : Q) (inps : list Temperatura.Leitura),
      length inps = 150 ->
      Deque.items (Temperatura.temps (Temperatura.aquisicao (Temperatura.init now) inps)) =
      map (fun i => Temperatura.ler_sensor (Temperatura.draw i)) (drop 30 inps)).
Proof.
  assert (Hgen : forall (A : Type) (N k : nat) (xs : list A),
             length xs = N + k ->
             Deque.items (Deque.extend (Deque.new N) xs) = drop k xs).
  { intros A N k xs Hlen.
    rewrite items_extend_drop by (unfold Deque.bounded; simpl; lia).
    simpl. f_equal. lia. }
  split; [|split].
  - intros A N k xs Hlen. split; [now apply Hgen|].
    rewrite (Hgen A N k xs Hlen), length_drop. lia.
  - now rewrite (Hgen nat 120 30 (seq 1 150)) by reflexivity.
  - intros now inps Hlen. rewrite temps_aquisicao. simpl.
    rewrite (Hgen Q Temperatura.MAX_PONTOS 30) by (rewrite length_map; exact Hlen).
    now rewrite skipn_map.
Qed.

Lemma C1_witness :
  length [5; 6; 7] = 2 + 1 /\
  Deque.items (Deque.extend (Deque.new 2) [5; 6; 7]) = [6; 7].
Proof.
  split; [reflexivity|].
  exact (proj1 (proj1 C1_rolling_buffer_keeps_last nat 2 1 [5; 6; 7] eq_refl)).
Defined.

(** ** Rounding *)

Section PyNumFacts.
Import PyNum.
Local Open Scope Q_scope.

Lemma round_half_even_cases q :
  round_half_even q = Qfloor q \/
  (round_half_even q = (Qfloor q + 1)%Z /\ inject_Z (Qfloor q) < q).
Proof.
  unfold round_half_even.
  destruct (Qcompare_spec (q - inject_Z (Qfloor q)) (1 # 2)) as [He|Hl|Hg].
  - destruct (Z.even (Qfloor q)); [now left|right]. split; [reflexivity|].
    lra.
  - now left.
  - right. split; [reflexivity|]. lra.
Qed.

(** Rounding does not leave an interval whose ends are integers. *)
Lemma round_half_even_between (a b : Z) q :
  inject_Z a <= q -> q <= inject_Z b ->
  (a <= round_half_even q <= b)%Z.
Proof.
  intros Ha Hb.
  assert (Hfa : (a <= Qfloor q)%Z).
  { rewrite <- (Qfloor_Z a). now apply Qfloor_resp_le. }
  assert (Hfb : (Qfloor q <= b)%Z).
  { rewrite <- (Qfloor_Z b). now apply Qfloor_resp_le. }
  destruct (round_half_even_cases q) as [->|[-> Hlt]]; [lia|].
  split; [lia|].
  assert (Hs : inject_Z (Qfloor q) < inject_Z b) by lra.
  rewrite <- Zlt_Qlt in Hs. lia.
Qed.

(** Rounding to one decimal place leaves a number of tenths as it is. *)
Lemma py_round1_tenths (k : Z) :
  py_round1 (inject_Z k / 10) == inject_Z k / 10.
Proof.
  unfold py_round1.
  assert (He : inject_Z k / 10 * 10 == inject_Z k) by (field; discriminate).
  assert (Hr : round_half_even (inject_Z k / 10 * 10) = k).
  { unfold round_half_even. rewrite (Qfloor_comp _ _ He), Qfloor_Z.
    destruct (Qcompare_spec (inject_Z k / 10 * 10 - inject_Z k) (1 # 2));
      [lra|reflexivity|lra]. }
  now rewrite Hr.
Qed.

End PyNumFacts.

(** ** The simulated sensor *)

Section SensorFacts.
Import PyNum Deque Temperatura.
Local Open Scope Q_scope.

Lemma ler_sensor_tenths u :
  unit_draw u ->
  exists k : Z, (240 <= k <= 300)%Z /\ ler_sensor u = inject_Z k / 10.
Proof.
  intros [H0 H1]. exists (round_half_even (uniform 24 30 u * 10)).
  split; [|reflexivity].
  apply round_half_even_between; unfold uniform.
  - change (inject_Z 240) with 240. lra.
  - change (inject_Z 300) with 300. lra.
Qed.

Lemma ler_sensor_in_range u : unit_draw u -> in_range (ler_sensor u).
Proof.
  intros Hu. destruct (ler_sensor_tenths u Hu) as (k & [Hlo Hhi] & ->).
  rewrite Zle_Qle in Hlo, Hhi.
  change (inject_Z 240) with 240 in Hlo. change (inject_Z 300) with 300 in Hhi.
  unfold in_range. split.
  - apply Qle_shift_div_l; [reflexivity|]. lra.
  - apply Qle_shift_div_r; [reflexivity|]. lra.
Qed.

Lemma Forall_items_append {B : Type} (P : B -> Prop) (d : deque B) (x : B) :
  Forall P (items d) -> P x -> Forall P (items (append d x)).
Proof.
  intros Hd Hx. unfold append. simpl.
  assert (Hall : Forall P (items d ++ [x])).
  { apply Forall_app. split; [assumption|]. now constructor. }
  destruct (Nat.ltb _ _); [|assumption].
  destruct (items d ++ [x]); simpl; [constructor|].
  now inversion Hall.
Qed.

Lemma step_temps_in_range app a :
  action_ok a ->
  Forall in_range (items (temps app)) ->
  Forall in_range (items (temps (step app a))).
Proof.
  intros Ha Hall. destruct a as [inp|]; simpl in *.
  - apply Forall_items_append; [assumption|]. now apply ler_sensor_in_range.
  - unfold update_gui. now destruct (last_item (temps app)).
Qed.

Lemma run_temps_in_range app acts :
  Forall action_ok acts ->
  Forall in_range (items (temps app)) ->
  Forall in_range (items (temps (run app acts))).
Proof.
  revert app. induction acts as [|a acts IH]; intros app Hacts Hall;
    [assumption|].
  inversion Hacts; subst. unfold run in *. simpl.
  apply IH; [assumption|]. now apply step_temps_in_range.
Qed.

End SensorFacts.

(** C10. A value that the simulated sensor returns, for a draw of
    [random()] between 0 (included) and 1 (excluded), lies between 24.0 and
    30.0 and has one decimal place: it is a number of tenths, which rounding
    to one place gives back. So every value that the monitor appends to
    [temps] lies between 24.0 and 30.0, and so does, after any actions of
    the program, every value that [temps] holds. *)
Theorem C10_sensor_values_in_range :
  (forall u : Q,
      Temperatura.unit_draw u ->
      (24 <= Temperatura.ler_sensor u /\ Temperatura.ler_sensor u <= 30)%Q /\
      (exists k : Z, Temperatura.ler_sensor u = (inject_Z k / 10)%Q) /\
      (PyNum.py_round1 (Temperatura.ler_sensor u) == Temperatura.ler_sensor u)%Q) /\
  (forall (now : Q) (acts : list Temperatura.Action),
      Forall Temperatura.action_ok acts ->
      Forall (fun t => 24 <= t /\ t <= 30)%Q
             (Deque.items (Temperatura.temps (Temperatura.run (Temperatura.init now) acts)))).
Proof.
  split.
  - intros u Hu. split; [exact (ler_sensor_in_range u Hu)|].
    destruct (ler_sensor_tenths u Hu) as (k & _ & Hk). split.
    + now exists k.
    + rewrite Hk. apply py_round1_tenths.
  - intros now acts Hacts.
    apply (run_temps_in_range (Temperatura.init now) acts Hacts).
    constructor.
Qed.

Lemma C10_witness :
  Temperatura.unit_draw (1 # 3) /\
  (24 <= Temperatura.ler_sensor (1 # 3) /\ Temperatura.ler_sensor (1 # 3) <= 30)%Q.
Proof.
  assert (Hu : Temperatura.unit_draw (1 # 3)).
  { unfold Temperatura.unit_draw. split; [discriminate|reflexivity]. }
  split; [exact Hu|].
  exact (proj1 (proj1 C10_sensor_values_in_range (1 # 3) Hu)).
Defined.

(** ** The radar: what each method does to the window *)

Section RadarFacts.
Import PyNum Radar.
Local Open Scope Z_scope.
Implicit Types (s : RadarLuxCam) (cam : CamRead).

Lemma reset_eq s :
  reset s =
  (mkRadar (amplitude_var s) (sweep_var s) (interval_var s) (repeat 0%Q 360) 0
           (running s) (cap_opened s) (lux_label s)
           (List.filter (fun it => negb (has_tag "dynamic" it)) (canvas s))
           (timers s),
   Ok tt).
Proof. reflexivity. Qed.

Lemma stop_eq s : stop s = (set_running false s, Ok tt).
Proof. reflexivity. Qed.

Lemma start_running s : running s = true -> start s = (s, Ok tt).
Proof. intros Hr. unfold start, bindM, gets. simpl. now rewrite Hr. Qed.

Lemma start_stopped s :
  running s = false ->
  start s =
  (mkRadar (amplitude_var s) (sweep_var s) (interval_var s) (readings s)
           (angle s) true (cap_opened s) (lux_label s) (canvas s)
           (timers s ++ [interval_var s]),
   Ok tt).
Proof. intros Hr. unfold start, bindM, gets. simpl. now rewrite Hr. Qed.

(** Two windows with the same fields are the same window. *)
Lemma radar_ext s1 s2 :
  amplitude_var s1 = amplitude_var s2 ->
  sweep_var s1 = sweep_var s2 ->
  interval_var s1 = interval_var s2 ->
  readings s1 = readings s2 ->
  angle s1 = angle s2 ->
  running s1 = running s2 ->
  cap_opened s1 = cap_opened s2 ->
  lux_label s1 = lux_label s2 ->
  canvas s1 = canvas s2 ->
  timers s1 = timers s2 ->
  s1 = s2.
Proof. destruct s1, s2. simpl. intros. now subst. Qed.

(** *** Sequencing *)

Lemma bindM_ok {A B} (c : M A) (k : A -> M B) s s' a :
  c s = (s', Ok a) -> bindM c k s = k a s'.
Proof. intros H. unfold bindM. now rewrite H. Qed.

Lemma bindM_raise {A B} (c : M A) (k : A -> M B) s s' e :
  c s = (s', Raise e) -> bindM c k s = (s', Raise e).
Proof. intros H. unfold bindM. now rewrite H. Qed.

Lemma set_canvas_id s : set_canvas (canvas s) s = s.
Proof. now destruct s. Qed.

Lemma set_canvas_twice c1 c2 s :
  set_canvas c2 (set_canvas c1 s) = set_canvas c2 s.
Proof. reflexivity. Qed.

(** *** The sampling step *)

Lemma read_lux_eq cam s :
  _read_lux_from_camera cam s = (s, Ok (lux_read cam (amplitude_var s))).
Proof.
  unfold _read_lux_from_camera, lux_read.
  now destruct (negb (ret cam)).
Qed.

(** *** Drawing the points *)

Lemma lux_to_color_eq lux s :
  amplitude_var s <> 0 ->
  _lux_to_color lux s = (s, Ok (colour_of_green (green (amplitude_var s) lux))).
Proof.
  intros Hamp. unfold _lux_to_color, bindM, gets. simpl.
  apply Z.eqb_neq in Hamp. now rewrite Hamp.
Qed.

Lemma lux_to_color_zero lux s :
  amplitude_var s = 0 -> _lux_to_color lux s = (s, Raise ZeroDivisionError).
Proof.
  intros Hamp. unfold _lux_to_color, bindM, gets. simpl. now rewrite Hamp.
Qed.

Lemma points_of_cons amp p rs :
  points_of amp (p :: rs) = points_of amp [p] ++ points_of amp rs.
Proof. unfold points_of. simpl. now rewrite app_nil_r. Qed.

Lemma draw_point_eq p s :
  amplitude_var s <> 0 ->
  draw_point (amplitude_var s) p s =
  (set_canvas (canvas s ++ points_of (amplitude_var s) [p]) s, Ok tt).
Proof.
  intros Hamp. destruct p as [ang lux]. unfold draw_point, points_of. simpl.
  destruct (Qle_bool lux 0).
  - simpl. now rewrite app_nil_r, set_canvas_id.
  - pose proof Hamp as Hb. apply Z.eqb_neq in Hb. rewrite Hb.
    rewrite (bindM_ok _ _ _ _ _ (lux_to_color_eq lux s Hamp)).
    reflexivity.
Qed.

Lemma for_each_draw_point rs s :
  amplitude_var s <> 0 ->
  for_each rs (draw_point (amplitude_var s)) s =
  (set_canvas (canvas s ++ points_of (amplitude_var s) rs) s, Ok tt).
Proof.
  intros Hamp. revert s Hamp. induction rs as [|p rs IH]; intros s Hamp.
  - simpl. unfold retM. now rewrite app_nil_r, set_canvas_id.
  - cbn [for_each]. rewrite (bindM_ok _ _ _ _ _ (draw_point_eq p s Hamp)).
    set (s1 := set_canvas _ s).
    pose proof (IH s1 Hamp) as Hrs.
    change (amplitude_var s1) with (amplitude_var s) in Hrs.
    rewrite Hrs. unfold s1. rewrite set_canvas_twice.
    rewrite (points_of_cons _ p rs), app_assoc. reflexivity.
Qed.

Lemma draw_points_eq s :
  amplitude_var s <> 0 ->
  _draw_points s =
  (set_canvas
     (canvas s ++ points_of (amplitude_var s) (enumerate (readings s))) s,
   Ok tt).
Proof.
  intros Hamp. unfold _draw_points, bindM at 1 2, gets.
  now apply for_each_draw_point.
Qed.

(** Whatever the amplitude, drawing the points writes to the canvas only. *)
Lemma draw_point_frame amp p s :
  exists c r, draw_point amp p s = (set_canvas c s, r).
Proof.
  destruct p as [ang lux]. unfold draw_point.
  destruct (Qle_bool lux 0).
  - exists (canvas s), (Ok tt). unfold retM. now rewrite set_canvas_id.
  - destruct (amp =? 0).
    + exists (canvas s), (Raise ZeroDivisionError). unfold raise.
      now rewrite set_canvas_id.
    + unfold _lux_to_color, bindM, gets, raise, retM, canvas_create, modify.
      destruct (amplitude_var s =? 0); eexists _, _;
        [now rewrite set_canvas_id | reflexivity].
Qed.

Lemma for_each_draw_point_frame amp rs s :
  exists c r, for_each rs (draw_point amp) s = (set_canvas c s, r).
Proof.
  revert s. induction rs as [|p rs IH]; intros s.
  - exists (canvas s), (Ok tt). simpl. unfold retM. now rewrite set_canvas_id.
  - simpl. destruct (draw_point_frame amp p s) as (c & r & Hp).
    destruct r as [[]|e].
    + rewrite (bindM_ok _ _ _ _ _ Hp).
      destruct (IH (set_canvas c s)) as (c' & r' & Hrs).
      exists c', r'. now rewrite Hrs.
    + rewrite (bindM_raise _ _ _ _ _ Hp). now exists c, (Raise e).
Qed.

Lemma draw_points_frame s :
  exists c r, _draw_points s = (set_canvas c s, r).
Proof.
  unfold _draw_points, bindM at 1 2, gets.
  apply for_each_draw_point_frame.
Qed.

(** *** One tick *)

Lemma bind_gets {A B} (f : RadarLuxCam -> A) (k : A -> M B) s :
  bindM (gets f) k s = k (f s) s.
Proof. reflexivity. Qed.

Lemma bind_modify {B} (f : RadarLuxCam -> RadarLuxCam) (k : unit -> M B) s :
  bindM (modify f) k s = k tt (f s).
Proof. reflexivity. Qed.

Lemma bind_lift_ok {A B} (a : A) (k : A -> M B) s :
  bindM (lift (Ok a)) k s = k a s.
Proof. reflexivity. Qed.

Lemma bind_lift_raise {A B} (e : exn) (k : A -> M B) s :
  bindM (lift (Raise e)) k s = (s, Raise e).
Proof. reflexivity. Qed.

Lemma list_setitem_in_range {A} (l : list A) (i : Z) (v : A) :
  0 <= i < Z.of_nat (length l) ->
  list_setitem l i v = Ok (<[Z.to_nat i := v]> l).
Proof.
  intros Hi. unfold list_setitem.
  destruct (Z.ltb_spec i 0) as [Hneg|_]; [lia|].
  destruct (Z.ltb_spec i 0) as [Hneg|_]; [lia|].
  destruct (Z.leb_spec (Z.of_nat (length l)) i) as [Hbig|_]; [lia|].
  reflexivity.
Qed.

Lemma list_setitem_length {A} (l l' : list A) (i : Z) (v : A) :
  list_setitem l i v = Ok l' -> length l' = length l.
Proof.
  unfold list_setitem. destruct (_ || _); [discriminate|].
  intros [= <-]. apply length_insert.
Qed.

Lemma draw_beam_eq s :
  _draw_beam s = (set_canvas (canvas s ++ [beam_item (angle s)]) s, Ok tt).
Proof. reflexivity. Qed.

Lemma schedule_next_running s :
  running s = true ->
  _schedule_next s = (set_timers (timers s ++ [interval_var s]) s, Ok tt).
Proof. intros Hr. unfold _schedule_next. now rewrite bind_gets, Hr. Qed.

Lemma schedule_next_stopped s :
  running s = false -> _schedule_next s = (s, Ok tt).
Proof. intros Hr. unfold _schedule_next. now rewrite bind_gets, Hr. Qed.

Lemma update_stopped cam s : running s = false -> _update cam s = (s, Ok tt).
Proof. intros Hr. unfold _update. rewrite bind_gets, Hr. reflexivity. Qed.

(** A tick of a running radar whose cursor cannot be written to: the
    exception leaves the window as it was. *)
Lemma update_index_error cam s e :
  running s = true ->
  list_setitem (readings s) (angle s) (lux_read cam (amplitude_var s)) = Raise e ->
  _update cam s = (s, Raise e).
Proof.
  intros Hr Hset. unfold _update. rewrite bind_gets, Hr. cbn [negb].
  rewrite (bindM_ok _ _ _ _ _ (read_lux_eq cam s)).
  rewrite !bind_gets, Hset. reflexivity.
Qed.

(** A tick of a running radar whose amplitude is not zero. *)
Lemma update_running cam s rs' :
  running s = true ->
  amplitude_var s <> 0 ->
  list_setitem (readings s) (angle s) (lux_read cam (amplitude_var s)) = Ok rs' ->
  _update cam s =
  (mkRadar (amplitude_var s) (sweep_var s) (interval_var s) rs'
           ((angle s + sweep_var s) mod 360) true (cap_opened s)
           (String.append (format_4_0f (lux_read cam (amplitude_var s))) " lux")
           ((List.filter (fun it => negb (has_tag "dynamic" it)) (canvas s) ++
             points_of (amplitude_var s) (enumerate rs')) ++
            [beam_item (angle s)])
           (timers s ++ [interval_var s]),
   Ok tt).
Proof.
  intros Hr Hamp Hset. unfold _update. rewrite bind_gets, Hr. cbn [negb].
  rewrite (bindM_ok _ _ _ _ _ (read_lux_eq cam s)).
  rewrite !bind_gets, Hset, bind_lift_ok, !bind_modify.
  unfold canvas_delete. rewrite bind_modify.
  match goal with |- bindM _draw_points _ ?s1 = _ =>
    rewrite (bindM_ok _ _ _ _ _ (draw_points_eq s1 Hamp)) end.
  rewrite (bindM_ok _ _ _ _ _ (draw_beam_eq _)).
  rewrite !bind_gets, bind_modify, schedule_next_running by exact Hr.
  f_equal. apply radar_ext; solve [reflexivity | exact Hr].
Qed.

(** A tick of a running radar, whatever the amplitude: either the tick
    completes, or drawing the points raised and the cursor stays where it
    was with no new timer. *)
Lemma update_running_frame cam s rs' :
  running s = true ->
  list_setitem (readings s) (angle s) (lux_read cam (amplitude_var s)) = Ok rs' ->
  exists c a ts r,
    _update cam s =
    (mkRadar (amplitude_var s) (sweep_var s) (interval_var s) rs' a true
             (cap_opened s)
             (String.append (format_4_0f (lux_read cam (amplitude_var s))) " lux")
             c ts, r) /\
    ((a = (angle s + sweep_var s) mod 360 /\ ts = timers s ++ [interval_var s]) \/
     (a = angle s /\ ts = timers s)).
Proof.
  intros Hr Hset. unfold _update. rewrite bind_gets, Hr. cbn [negb].
  rewrite (bindM_ok _ _ _ _ _ (read_lux_eq cam s)).
  rewrite !bind_gets, Hset, bind_lift_ok, !bind_modify.
  unfold canvas_delete. rewrite bind_modify.
  match goal with |- context [bindM _draw_points _ ?s1] =>
    destruct (draw_points_frame s1) as (c & r & Hdraw) end.
  destruct r as [[]|e].
  - rewrite (bindM_ok _ _ _ _ _ Hdraw).
    rewrite (bindM_ok _ _ _ _ _ (draw_beam_eq _)).
    rewrite !bind_gets, bind_modify, schedule_next_running by exact Hr.
    eexists _, _, _, _. split.
    + f_equal. apply radar_ext; solve [reflexivity | exact Hr].
    + left. split; reflexivity.
  - rewrite (bindM_raise _ _ _ _ _ Hdraw).
    eexists _, _, _, _. split.
    + f_equal. apply radar_ext; solve [reflexivity | exact Hr].
    + right. split; reflexivity.
Qed.

(** *** Reset *)

Lemma filter_twice {A} (f : A -> bool) (l : list A) :
  List.filter f (List.filter f l) = List.filter f l.
Proof.
  induction l as [|x l IH]; [reflexivity|]. simpl.
  destruct (f x) eqn:Hx; simpl; [rewrite Hx|]; now rewrite IH.
Qed.

Lemma filter_negb_none {A} (f : A -> bool) (l : list A) :
  List.filter f (List.filter (fun x => negb (f x)) l) = [].
Proof.
  induction l as [|x l IH]; [reflexivity|]. simpl.
  destruct (f x) eqn:Hx; simpl; [|rewrite Hx]; exact IH.
Qed.

(** *** The invariant of the cursor and of the buffer *)

Lemma wf_setitem s v :
  wf s ->
  list_setitem (readings s) (angle s) v =
  Ok (<[Z.to_nat (angle s) := v]> (readings s)).
Proof. intros [Ha Hl]. apply list_setitem_in_range. lia. Qed.

Lemma wf_initial : wf initial.
Proof.
  unfold wf. change (angle initial) with 0. split; [lia|reflexivity].
Qed.

Lemma wf_set_running b s : wf s -> wf (set_running b s).
Proof. intros Hwf. exact Hwf. Qed.

Lemma update_wf cam s : wf s -> wf (fst (_update cam s)).
Proof.
  intros Hwf. destruct (running s) eqn:Hr.
  - pose proof (wf_setitem s (lux_read cam (amplitude_var s)) Hwf) as Hset.
    destruct (update_running_frame cam s _ Hr Hset)
      as (c & a & ts & r & -> & Hcase).
    destruct Hwf as [Ha Hl]. unfold wf. simpl. rewrite length_insert.
    split; [|exact Hl].
    destruct Hcase as [[-> _]|[-> _]]; [|exact Ha].
    pose proof (Z.mod_pos_bound (angle s + sweep_var s) 360). lia.
  - now rewrite update_stopped.
Qed.

Lemma update_timers cam s :
  (length (timers (fst (_update cam s))) <= S (length (timers s)))%nat.
Proof.
  destruct (running s) eqn:Hr; [|rewrite update_stopped by exact Hr; simpl; lia].
  destruct (list_setitem (readings s) (angle s) (lux_read cam (amplitude_var s)))
    as [rs'|e] eqn:Hset.
  - destruct (update_running_frame cam s _ Hr Hset)
      as (c & a & ts & r & -> & Hcase). simpl.
    destruct Hcase as [[_ ->]|[_ ->]]; [rewrite length_app; simpl|]; lia.
  - rewrite (update_index_error cam s e Hr Hset). simpl. lia.
Qed.

Lemma handle_wf s e : wf s -> wf (handle s e).
Proof.
  intros Hwf. destruct e as [| | |v|v|v|i cam]; simpl.
  - destruct (running s) eqn:Hr.
    + now rewrite start_running.
    + rewrite start_stopped by exact Hr. exact Hwf.
  - exact Hwf.
  - unfold wf. simpl. split; [lia|reflexivity].
  - exact Hwf.
  - exact Hwf.
  - exact Hwf.
  - destruct (timers s !! i); [|exact Hwf]. apply update_wf. exact Hwf.
Qed.

(** The invariant holds all along the main loop, whatever the scales are
    moved to. *)
Lemma mainloop_wf es s : wf s -> wf (mainloop s es).
Proof.
  revert s. induction es as [|e es IH]; intros s Hwf; [exact Hwf|].
  unfold mainloop in *. simpl. apply IH. now apply handle_wf.
Qed.

(** *** Pending timers *)

Lemma handle_timers s e :
  (e = PressStart -> running s = false -> timers s = []) ->
  (length (timers s) <= 1)%nat ->
  (length (timers (handle s e)) <= 1)%nat.
Proof.
  intros Hguard Hlen. destruct e as [| | |v|v|v|i cam]; simpl; try exact Hlen.
  - destruct (running s) eqn:Hr.
    + now rewrite start_running.
    + rewrite start_stopped by exact Hr. simpl.
      rewrite (Hguard eq_refl eq_refl). simpl. lia.
  - destruct (timers s !! i) as [t|] eqn:Hi; [|exact Hlen].
    pose proof (update_timers cam (set_timers (delete i (timers s)) s)) as Hup.
    simpl in Hup. rewrite length_delete in Hup by (now exists t).
    lia.
Qed.

Lemma mainloop_timers es s :
  (length (timers s) <= 1)%nat ->
  no_restart_race s es ->
  (length (timers (mainloop s es)) <= 1)%nat.
Proof.
  revert s. induction es as [|e es IH]; intros s Hlen Hrace; [exact Hlen|].
  destruct Hrace as [Hguard Hrest]. unfold mainloop in *. simpl.
  apply IH; [|exact Hrest]. now apply handle_timers.
Qed.

End RadarFacts.

(** ** Reset *)

Lemma Forall_repeat {A} (P : A -> Prop) (x : A) (n : nat) :
  P x -> Forall P (repeat x n).
Proof. intros Hx. induction n; simpl; now constructor. Qed.

(** No action of the temperature monitor empties a time series in use. *)
Lemma step_times_nonempty (app : Temperatura.App) (a : Temperatura.Action) :
  (0 < Deque.maxlen (Temperatura.times app))%nat ->
  Deque.items (Temperatura.times app) <> [] ->
  Deque.items (Temperatura.times (Temperatura.step app a)) <> [].
Proof.
  intros Hmax Hne. destruct a as [inp|]; simpl.
  - destruct (Deque.items (Temperatura.times app)) as [|t [|t' l]] eqn:Hl;
      [congruence| |].
    + simpl. destruct (Deque.maxlen (Temperatura.times app)) as [|[|n]];
        [lia|discriminate|discriminate].
    + simpl. now destruct (Nat.ltb _ _).
  - unfold Temperatura.update_gui.
    now destruct (Deque.last_item (Temperatura.temps app)).
Qed.

(** C3, for the radar. Whatever the window of the radar was (any readings, any
    angle, running or stopped), after [reset] the buffer holds 360 zeros,
    the cursor is at angle 0, as in the initial window, and no dynamic item
    is left on the canvas; [reset] raises nothing. *)
Theorem C3_reset_clears_radar :
  forall s : Radar.RadarLuxCam,
    snd (Radar.reset s) = Radar.Ok tt /\
    Radar.readings (fst (Radar.reset s)) = repeat 0%Q 360 /\
    Forall (fun v => v = 0%Q) (Radar.readings (fst (Radar.reset s))) /\
    Radar.angle (fst (Radar.reset s)) = 0%Z /\
    Radar.readings (fst (Radar.reset s)) = Radar.readings Radar.initial /\
    Radar.angle (fst (Radar.reset s)) = Radar.angle Radar.initial /\
    Radar.dynamic_items (fst (Radar.reset s)) = [].
Proof.
  intros s. rewrite reset_eq.
  cbn [fst snd Radar.readings Radar.angle Radar.dynamic_items Radar.canvas].
  repeat split.
  - now apply Forall_repeat.
  - apply (filter_negb_none (Radar.has_tag "dynamic")).
Qed.

(** The temperature monitor has nothing that resets: from a window whose
    time series holds one value, no action of the program gives a window
    with an empty time series. *)
Lemma C3_counterexample :
  Deque.items
    (Temperatura.times
       (Temperatura.aquisicao (Temperatura.init 0)
                              [Temperatura.mkLeitura (1 # 2) 1])) = [1%Q] /\
  ~ (exists a : Temperatura.Action,
        Deque.items
          (Temperatura.times
             (Temperatura.step
                (Temperatura.aquisicao (Temperatura.init 0)
                                       [Temperatura.mkLeitura (1 # 2) 1]) a))
        = []).
Proof.
  split; [reflexivity|].
  intros [a Ha]. revert Ha. apply step_times_nonempty.
  - simpl. unfold Temperatura.MAX_PONTOS. lia.
  - discriminate.
Qed.

(** C7. Whatever the window was, [reset] leaves the flag [running] as it
    was, so it is valid on a stopped and on a running radar and turns
    neither into the other; the variables of the control panel, the camera,
    the label, the pending timers and the items of the canvas that are not
    dynamic are as they were: only the readings, the dynamic items and the
    angle are written. *)
Theorem C7_reset_keeps_the_rest :
  forall s : Radar.RadarLuxCam,
    Radar.running (fst (Radar.reset s)) = Radar.running s /\
    Radar.amplitude_var (fst (Radar.reset s)) = Radar.amplitude_var s /\
    Radar.sweep_var (fst (Radar.reset s)) = Radar.sweep_var s /\
    Radar.interval_var (fst (Radar.reset s)) = Radar.interval_var s /\
    Radar.cap_opened (fst (Radar.reset s)) = Radar.cap_opened s /\
    Radar.lux_label (fst (Radar.reset s)) = Radar.lux_label s /\
    Radar.timers (fst (Radar.reset s)) = Radar.timers s /\
    Radar.static_items (fst (Radar.reset s)) = Radar.static_items s.
Proof.
  intros s. rewrite reset_eq. unfold Radar.static_items.
  cbn [fst Radar.canvas]. repeat split. apply filter_twice.
Qed.

(** ** Start *)

(** [start] on a running radar is a no-op: the window is the same
    afterwards, with the same pending timers, and nothing is raised; so
    [start] is idempotent. At most one timer is pending along a run from
    the initial window as long as Start is not pressed on a stopped radar
    that still has a pending timer. *)
Lemma start_on_running_radar :
  (forall s : Radar.RadarLuxCam,
      Radar.running s = true -> Radar.start s = (s, Radar.Ok tt)) /\
  (forall s : Radar.RadarLuxCam,
      fst (Radar.start (fst (Radar.start s))) = fst (Radar.start s)) /\
  (forall es : list Radar.Event,
      Radar.no_restart_race Radar.initial es ->
      (length (Radar.timers (Radar.mainloop Radar.initial es)) <= 1)%nat).
Proof.
  split; [|split].
  - exact start_running.
  - intros s. destruct (Radar.running s) eqn:Hr.
    + rewrite (start_running s Hr). cbn [fst]. now rewrite (start_running s Hr).
    + rewrite (start_stopped s Hr). cbn [fst]. now rewrite start_running.
  - intros es. apply mainloop_timers. simpl. lia.
Qed.

Section RestartFacts.
Import Radar.
Local Open Scope Z_scope.

(** A tick of a running radar whose amplitude is not zero puts one timer
    at the end of the pending ones for the one that fired. *)
Lemma running_fire_reschedules s cam t ts :
  running s = true -> wf s -> amplitude_var s <> 0 -> timers s = t :: ts ->
  running (handle s (TimerFires 0 cam)) = true /\
  wf (handle s (TimerFires 0 cam)) /\
  amplitude_var (handle s (TimerFires 0 cam)) = amplitude_var s /\
  timers (handle s (TimerFires 0 cam)) = ts ++ [interval_var s].
Proof.
  intros Hr Hwf Hamp Ht. cbn [handle]. rewrite Ht.
  cbn [lookup list_lookup delete list_delete].
  set (s0 := set_timers ts s).
  assert (Hwf0 : wf s0) by exact Hwf.
  rewrite (update_running cam s0 _ Hr Hamp (wf_setitem s0 _ Hwf0)).
  cbn [fst running amplitude_var timers].
  split; [reflexivity|]. split; [|split; reflexivity].
  unfold wf. cbn [angle readings]. rewrite length_insert.
  pose proof (Z.mod_pos_bound (angle s0 + sweep_var s0) 360).
  destruct Hwf as [_ Hl]. split; [lia|exact Hl].
Qed.

(** However many timers are pending on a running radar, as many are
    pending after any number of firings. *)
Lemma running_fires_keep_count cams s :
  running s = true -> wf s -> amplitude_var s <> 0 ->
  running (mainloop s (map (TimerFires 0) cams)) = true /\
  length (timers (mainloop s (map (TimerFires 0) cams))) = length (timers s).
Proof.
  revert s. induction cams as [|cam cams IH]; intros s Hr Hwf Hamp.
  - now split.
  - unfold mainloop in *. cbn [map fold_left].
    destruct (timers s) as [|t ts] eqn:Ht.
    + assert (Hsame : handle s (TimerFires 0 cam) = s).
      { cbn [handle]. now rewrite Ht. }
      rewrite Hsame. destruct (IH s Hr Hwf Hamp) as [Hr' Hl'].
      split; [exact Hr'|]. now rewrite Hl', Ht.
    + destruct (running_fire_reschedules s cam t ts Hr Hwf Hamp Ht)
        as (Hr1 & Hwf1 & Ha1 & Ht1).
      destruct (IH (handle s (TimerFires 0 cam)) Hr1 Hwf1
                   ltac:(now rewrite Ha1)) as [Hr' Hl'].
      split; [exact Hr'|]. rewrite Hl', Ht1, length_app. simpl. lia.
Qed.

End RestartFacts.

(** C8. The claim's bound of one active update loop does not hold of the
    code: [stop] only clears the flag and leaves the pending timer, so
    after Start, Stop, Start, pressed before that timer fires, the guard of
    [start] lets a second timer be scheduled. The radar then runs with two
    pending timers, and however many times a timer fires afterwards the
    radar still runs with two pending timers: two update loops are
    active. *)
Theorem C8_restart_leaves_two_loops :
  Radar.running
    (Radar.mainloop Radar.initial
       [Radar.PressStart; Radar.PressStop; Radar.PressStart]) = true /\
  Radar.timers
    (Radar.mainloop Radar.initial
       [Radar.PressStart; Radar.PressStop; Radar.PressStart]) = [60%Z; 60%Z] /\
  (forall cams : list Radar.CamRead,
      Radar.running
        (Radar.mainloop
           (Radar.mainloop Radar.initial
              [Radar.PressStart; Radar.PressStop; Radar.PressStart])
           (map (Radar.TimerFires 0) cams)) = true /\
      length
        (Radar.timers
           (Radar.mainloop
              (Radar.mainloop Radar.initial
                 [Radar.PressStart; Radar.PressStop; Radar.PressStart])
              (map (Radar.TimerFires 0) cams))) = 2).
Proof.
  split; [reflexivity|]. split; [reflexivity|].
  intros cams.
  apply (running_fires_keep_count cams
           (Radar.mainloop Radar.initial
              [Radar.PressStart; Radar.PressStop; Radar.PressStart])).
  - reflexivity.
  - apply mainloop_wf, wf_initial.
  - change (Radar.amplitude_var
              (Radar.mainloop Radar.initial
                 [Radar.PressStart; Radar.PressStop; Radar.PressStart]))
      with 1000%Z. discriminate.
Qed.

(** ** The cursor and the buffer *)

(** C9. The angle is an integer from 0 to 359 and the buffer holds exactly
    360 readings in the window that [__init__] builds, after [reset] on any
    window, and after a tick of [_update] on a window where this held, for
    every sweep from 1 to 10; on a running radar whose amplitude is not zero
    the tick completes without an exception. *)
Theorem C9_angle_and_buffer_invariant :
  Radar.wf Radar.initial /\
  (forall s : Radar.RadarLuxCam, Radar.wf (fst (Radar.reset s))) /\
  (forall (s : Radar.RadarLuxCam) (cam : Radar.CamRead),
      Radar.wf s ->
      (1 <= Radar.sweep_var s <= 10)%Z ->
      Radar.wf (fst (Radar._update cam s)) /\
      (Radar.running s = true -> Radar.amplitude_var s <> 0%Z ->
       snd (Radar._update cam s) = Radar.Ok tt /\
       Radar.angle (fst (Radar._update cam s)) =
       ((Radar.angle s + Radar.sweep_var s) mod 360)%Z)).
Proof.
  split; [|split].
  - exact wf_initial.
  - intros s. rewrite reset_eq. unfold Radar.wf. cbn [fst Radar.angle Radar.readings].
    split; [lia|reflexivity].
  - intros s cam Hwf _. split; [now apply update_wf|].
    intros Hr Hamp.
    rewrite (update_running cam s _ Hr Hamp (wf_setitem s _ Hwf)).
    split; reflexivity.
Qed.

Lemma C9_witness :
  Radar.wf (Radar.set_running true Radar.initial) /\
  (1 <= Radar.sweep_var (Radar.set_running true Radar.initial) <= 10)%Z /\
  Radar.wf (fst (Radar._update (Radar.mkCamRead true 128)
                               (Radar.set_running true Radar.initial))).
Proof.
  pose proof (wf_set_running true Radar.initial wf_initial) as Hwf.
  assert (Hsw : (1 <= Radar.sweep_var (Radar.set_running true Radar.initial) <= 10)%Z).
  { change (Radar.sweep_var (Radar.set_running true Radar.initial)) with 2%Z.
    lia. }
  split; [exact Hwf|]. split; [exact Hsw|].
  exact (proj1 (proj2 (proj2 C9_angle_and_buffer_invariant)
                      (Radar.set_running true Radar.initial)
                      (Radar.mkCamRead true 128) Hwf Hsw)).
Defined.

(** ** The sampling step *)

(** C5. On a tick of a running radar on which the camera gives no frame,
    [_read_lux_from_camera] returns 0.0 and raises nothing, the window
    untouched, and the slot of the buffer at the current angle holds that
    zero after the tick; the tick itself completes without an exception
    when the amplitude is not zero. *)
Theorem C5_failed_read_gives_zero :
  forall (s : Radar.RadarLuxCam) (cam : Radar.CamRead),
    Radar.ret cam = false ->
    Radar.running s = true ->
    Radar.wf s ->
    Radar._read_lux_from_camera cam s = (s, Radar.Ok 0%Q) /\
    Radar.readings (fst (Radar._update cam s)) !! Z.to_nat (Radar.angle s)
      = Some 0%Q /\
    (Radar.amplitude_var s <> 0%Z -> snd (Radar._update cam s) = Radar.Ok tt).
Proof.
  intros s cam Hret Hr Hwf.
  assert (Hlux : Radar.lux_read cam (Radar.amplitude_var s) = 0%Q).
  { unfold Radar.lux_read. now rewrite Hret. }
  pose proof (wf_setitem s (Radar.lux_read cam (Radar.amplitude_var s)) Hwf)
    as Hset.
  split; [|split].
  - now rewrite read_lux_eq, Hlux.
  - destruct (update_running_frame cam s _ Hr Hset)
      as (c & a & ts & r & -> & _).
    cbn [fst Radar.readings]. rewrite Hlux.
    apply list_lookup_insert_eq. destruct Hwf as [Ha Hl]. lia.
  - intros Hamp. now rewrite (update_running cam s _ Hr Hamp Hset).
Qed.

Lemma C5_witness :
  Radar.ret (Radar.mkCamRead false 0) = false /\
  Radar.running (Radar.set_running true Radar.initial) = true /\
  Radar.readings
    (fst (Radar._update (Radar.mkCamRead false 0)
                        (Radar.set_running true Radar.initial)))
    !! Z.to_nat (Radar.angle (Radar.set_running true Radar.initial))
  = Some 0%Q.
Proof.
  pose proof (wf_set_running true Radar.initial wf_initial) as Hwf.
  split; [reflexivity|]. split; [reflexivity|].
  exact (proj1 (proj2 (C5_failed_read_gives_zero
                         (Radar.set_running true Radar.initial)
                         (Radar.mkCamRead false 0) eq_refl eq_refl Hwf))).
Defined.

(** C6. When the camera gives a frame of mean intensity [m], the reading is
    [(m / 255) * amplitude]. For amplitude 1000 and mean intensity 128 it is
    the rational 25600/51, which is between 501 and 502 and rounds to 502,
    the number that the label then shows. *)
Theorem C6_lux_conversion :
  (forall (s : Radar.RadarLuxCam) (m : Q),
      Radar._read_lux_from_camera (Radar.mkCamRead true m) s =
      (s, Radar.Ok ((m / 255) * inject_Z (Radar.amplitude_var s))%Q)) /\
  (forall s : Radar.RadarLuxCam,
      exists lux : Q,
        snd (Radar._read_lux_from_camera (Radar.mkCamRead true 128)
               (Radar.set_amplitude_var 1000 s)) = Radar.Ok lux /\
        (lux == 25600 # 51)%Q /\
        Qred lux = (25600 # 51)%Q /\
        (501 < lux)%Q /\ (lux < 502)%Q /\
        PyNum.round_half_even lux = 502%Z /\
        PyNum.format_4_0f lux = " 502"%string).
Proof.
  split.
  - intros s m. apply read_lux_eq.
  - intros s. exists ((128 / 255) * inject_Z 1000)%Q.
    split; [now rewrite read_lux_eq|].
    repeat split.
Qed.

(** ** The colour of a point *)

Section ColourFacts.
Import PyNum Radar.
Local Open Scope Q_scope.

Lemma py_int_nonneg q : 0 <= q -> py_int q = Qfloor q.
Proof.
  intros Hq. unfold py_int. apply Qle_bool_iff in Hq. now rewrite Hq.
Qed.

(** Truncation toward zero is monotone. *)
Lemma py_int_mono q1 q2 : q1 <= q2 -> (py_int q1 <= py_int q2)%Z.
Proof.
  intros Hle. unfold py_int.
  destruct (Qle_bool 0 q1) eqn:H1; destruct (Qle_bool 0 q2) eqn:H2.
  - now apply Qfloor_resp_le.
  - apply Qle_bool_iff in H1.
    assert (H2' : ~ 0 <= q2) by (rewrite <- Qle_bool_iff; congruence).
    exfalso. apply H2'. lra.
  - apply Qle_bool_iff in H2.
    assert (H1' : ~ 0 <= q1) by (rewrite <- Qle_bool_iff; congruence).
    assert (Hc : (Qceiling q1 <= 0)%Z).
    { rewrite <- (Qceiling_Z 0). apply Qceiling_resp_le.
      change (inject_Z 0) with 0. lra. }
    assert (Hf : (0 <= Qfloor q2)%Z).
    { rewrite <- (Qfloor_Z 0). now apply Qfloor_resp_le. }
    lia.
  - now apply Qceiling_resp_le.
Qed.

Lemma clamp_mono lo hi g1 g2 :
  (g1 <= g2)%Z -> (clamp lo hi g1 <= clamp lo hi g2)%Z.
Proof. unfold clamp. lia. Qed.

Lemma clamp_between lo hi g :
  (lo <= hi)%Z -> (lo <= clamp lo hi g <= hi)%Z.
Proof. unfold clamp. lia. Qed.

(** The scaled reading [205 * lux / amp] grows with the reading. *)
Lemma scaled_mono (amp : Z) m1 m2 :
  (0 < amp)%Z -> m1 <= m2 ->
  50 + 205 * m1 / inject_Z amp <= 50 + 205 * m2 / inject_Z amp.
Proof.
  intros Hamp Hle.
  assert (Ha : 0 < inject_Z amp).
  { change 0 with (inject_Z 0). now rewrite <- Zlt_Qlt. }
  apply Qplus_le_r. unfold Qdiv.
  apply Qmult_le_compat_r; [lra|].
  apply Qlt_le_weak. now apply Qinv_lt_0_compat.
Qed.

Lemma green_mono (amp : Z) m1 m2 :
  (0 < amp)%Z -> m1 <= m2 -> (green amp m1 <= green amp m2)%Z.
Proof.
  intros Hamp Hle. unfold green.
  apply clamp_mono, py_int_mono. now apply scaled_mono.
Qed.

Lemma green_between amp m : (0 <= green amp m <= 255)%Z.
Proof. unfold green. now apply clamp_between. Qed.

(** From a reading of zero upward the green starts at 50. *)
Lemma green_floor (amp : Z) m :
  (0 < amp)%Z -> 0 <= m -> (50 <= green amp m)%Z.
Proof.
  intros Hamp Hm.
  assert (H0 : green amp 0 = 50%Z).
  { unfold green. replace (py_int (50 + 205 * 0 / inject_Z amp)) with 50%Z;
      [reflexivity|].
    assert (He : 50 + 205 * 0 / inject_Z amp == inject_Z 50).
    { unfold Qdiv. change (inject_Z 50) with 50. ring. }
    rewrite py_int_nonneg by (rewrite He; discriminate).
    now rewrite (Qfloor_comp _ _ He), Qfloor_Z. }
  rewrite <- H0. now apply green_mono.
Qed.

(** From the amplitude upward the green is saturated. *)
Lemma green_saturated (amp : Z) m :
  (0 < amp)%Z -> inject_Z amp <= m -> green amp m = 255%Z.
Proof.
  intros Hamp Hm.
  assert (Ha : 0 < inject_Z amp).
  { change 0 with (inject_Z 0). now rewrite <- Zlt_Qlt. }
  assert (Htop : green amp (inject_Z amp) = 255%Z).
  { unfold green.
    replace (py_int (50 + 205 * inject_Z amp / inject_Z amp)) with 255%Z;
      [reflexivity|].
    assert (He : 50 + 205 * inject_Z amp / inject_Z amp == inject_Z 255).
    { change (inject_Z 255) with 255. field. lra. }
    rewrite py_int_nonneg by (rewrite He; discriminate).
    now rewrite (Qfloor_comp _ _ He), Qfloor_Z. }
  pose proof (green_mono amp _ _ Hamp Hm) as Hmono.
  pose proof (green_between amp m) as Hb. lia.
Qed.

End ColourFacts.

(** C4. For an amplitude above zero the green component does not decrease
    when the reading grows: for readings [0 <= m1 <= m2] the green of [m1]
    is at most the green of [m2]. For every reading from zero upward,
    above the amplitude too, the green lies between 0 and 255; it starts at
    50 and is 255 from the amplitude upward. [_lux_to_color] returns the
    colour with that green and leaves the window untouched. *)
Theorem C4_green_monotone_and_clamped :
  forall A : Z,
    (0 < A)%Z ->
    (forall m1 m2 : Q,
        (0 <= m1)%Q -> (m1 <= m2)%Q ->
        (Radar.green A m1 <= Radar.green A m2)%Z) /\
    (forall m : Q,
        (0 <= m)%Q ->
        (0 <= Radar.green A m <= 255)%Z /\ (50 <= Radar.green A m)%Z) /\
    (forall m : Q, (inject_Z A <= m)%Q -> Radar.green A m = 255%Z) /\
    (forall (s : Radar.RadarLuxCam) (m : Q),
        Radar.amplitude_var s = A ->
        Radar._lux_to_color m s =
        (s, Radar.Ok (Radar.colour_of_green (Radar.green A m)))).
Proof.
  intros A HA. split; [|split; [|split]].
  - intros m1 m2 _ Hle. now apply green_mono.
  - intros m Hm. split; [apply green_between|now apply green_floor].
  - intros m Hm. now apply green_saturated.
  - intros s m <-. apply lux_to_color_eq. lia.
Qed.

Lemma C4_witness :
  (0 < 1000)%Z /\ (0 <= 0)%Q /\ (0 <= 500)%Q /\
  (Radar.green 1000 0 <= Radar.green 1000 500)%Z.
Proof.
  split; [reflexivity|]. split; [discriminate|]. split; [discriminate|].
  exact (proj1 (C4_green_monotone_and_clamped 1000 eq_refl) 0%Q 500%Q
               ltac:(discriminate) ltac:(discriminate)).
Defined.

(** ** The projection of a reading onto the canvas *)

Section ProjectionFacts.
Import PyNum Radar.

Lemma combine_seq_lookup {A} (l : list A) (k a : nat) (m : A) :
  l !! a = Some m -> In ((k + a)%nat, m) (combine (seq k (length l)) l).
Proof.
  revert k a. induction l as [|x l IH]; intros k a Hl; [discriminate|].
  destruct a as [|a]; simpl in *.
  - left. injection Hl as ->. f_equal. lia.
  - right. replace (k + S a)%nat with (S k + a)%nat by lia. now apply IH.
Qed.

Lemma enumerate_lookup {A} (l : list A) (a : nat) (m : A) :
  l !! a = Some m -> In (a, m) (enumerate l).
Proof. intros Hl. exact (combine_seq_lookup l 0 a m Hl). Qed.

Lemma enumerate_In {A} (l : list A) (a : nat) (m : A) :
  In (a, m) (enumerate l) -> l !! a = Some m.
Proof.
  unfold enumerate.
  assert (Hgen : forall k, In (a, m) (combine (seq k (length l)) l) ->
                           exists i, a = (k + i)%nat /\ l !! i = Some m).
  { induction l as [|x l IH]; intros k Hin; [destruct Hin|].
    simpl in Hin. destruct Hin as [[= <- <-]|Hin].
    - exists 0%nat. split; [lia|reflexivity].
    - destruct (IH (S k) Hin) as (i & -> & Hi).
      exists (S i). split; [lia|exact Hi]. }
  intros Hin. destruct (Hgen 0%nat Hin) as (i & -> & Hi). exact Hi.
Qed.

Lemma Q2R_inject_Z (z : Z) : Q2R (inject_Z z) = IZR z.
Proof. unfold Q2R. simpl. field. Qed.

(** The radius of a point as a real number. *)
Lemma point_radius_real (amp : Z) (lux : Q) :
  amp <> 0%Z ->
  Q2R (point_radius amp lux) = (Q2R lux / IZR amp * IZR RAIO)%R.
Proof.
  intros Hamp. unfold point_radius.
  rewrite Q2R_mult, Q2R_div, !Q2R_inject_Z; [reflexivity|].
  intros He. apply Hamp. unfold Qeq in He. simpl in He. lia.
Qed.

(** A point that stands [r] away from the centre at the angle [theta]. *)
Lemma on_circle (cx cy r theta : R) :
  (((cx + r * cos theta) - cx)² + ((cy - r * sin theta) - cy)² = r²)%R.
Proof.
  unfold Rsqr.
  replace ((cx + r * cos theta - cx) * (cx + r * cos theta - cx) +
           (cy - r * sin theta - cy) * (cy - r * sin theta - cy))%R
    with (r * r * ((sin theta)² + (cos theta)²))%R by (unfold Rsqr; ring).
  rewrite sin2_cos2. ring.
Qed.

(** A positive reading has its item among those of the loop. *)
Lemma points_of_In (amp : Z) (rs : list (nat * Q)) (a : nat) (m : Q) :
  In (a, m) rs -> (0 < m)%Q ->
  In (point_item (point_x amp a m) (point_y amp a m)
                 (colour_of_green (green amp m)))
     (points_of amp rs).
Proof.
  intros Hin Hm. unfold points_of. apply in_flat_map.
  exists (a, m). split; [exact Hin|].
  assert (Hb : Qle_bool m 0 = false).
  { destruct (Qle_bool m 0) eqn:Hb; [|reflexivity].
    apply Qle_bool_iff in Hb. lra. }
  rewrite Hb. now left.
Qed.

(** The loop creates items for positive readings only. *)
Lemma points_of_positive (amp : Z) (rs : list (nat * Q)) (it : item) :
  In it (points_of amp rs) ->
  exists a m, In (a, m) rs /\ (0 < m)%Q /\
              it = point_item (point_x amp a m) (point_y amp a m)
                              (colour_of_green (green amp m)).
Proof.
  unfold points_of. intros Hin. apply in_flat_map in Hin.
  destruct Hin as ([a m] & Hin & Hit).
  destruct (Qle_bool m 0) eqn:Hb; [destruct Hit|].
  destruct Hit as [<-|[]]. exists a, m. split; [exact Hin|]. split; [|reflexivity].
  apply Qnot_le_lt. intros Hle. apply Qle_bool_iff in Hle. congruence.
Qed.

(** What [_draw_points] adds to the canvas, for an amplitude that is not
    zero: the items of the positive readings, and nothing for the others. *)
Lemma draw_points_only_positive (s : RadarLuxCam) (it : item) :
  amplitude_var s <> 0%Z ->
  In it (canvas (fst (_draw_points s))) ->
  In it (canvas s) \/
  exists a m, readings s !! a = Some m /\ (0 < m)%Q /\
              it = point_item (point_x (amplitude_var s) a m)
                              (point_y (amplitude_var s) a m)
                              (colour_of_green (green (amplitude_var s) m)).
Proof.
  intros Hamp. rewrite (draw_points_eq s Hamp). cbn [fst canvas set_canvas].
  intros Hin. apply in_app_or in Hin. destruct Hin as [Hin|Hin]; [now left|].
  right. destruct (points_of_positive _ _ _ Hin) as (a & m & Hrs & Hm & ->).
  exists a, m. split; [now apply enumerate_In|]. now split.
Qed.

End ProjectionFacts.

Section ProjectionCount.
Import PyNum Radar.

(** The body of the loop of [_draw_points] does nothing for a reading that
    is not positive, whatever the amplitude and the window. *)
Lemma draw_point_nonpositive (amp : Z) (a : nat) (m : Q) (w : RadarLuxCam) :
  (m <= 0)%Q -> draw_point amp (a, m) w = (w, Ok tt).
Proof.
  intros Hm. unfold draw_point. apply Qle_bool_iff in Hm. now rewrite Hm.
Qed.

Lemma points_of_length (amp : Z) (rs : list (nat * Q)) :
  length (points_of amp rs) =
  length (List.filter (fun p : nat * Q => negb (Qle_bool (snd p) 0)) rs).
Proof.
  induction rs as [|[a m] rs IH]; [reflexivity|].
  rewrite points_of_cons, length_app, IH. unfold points_of. simpl.
  now destruct (Qle_bool m 0).
Qed.

Lemma filter_combine_seq_length (l : list Q) (k : nat) :
  length (List.filter (fun p : nat * Q => negb (Qle_bool (snd p) 0))
                      (combine (seq k (length l)) l)) =
  length (List.filter (fun m : Q => negb (Qle_bool m 0)) l).
Proof.
  revert k. induction l as [|m l IH]; intros k; [reflexivity|].
  simpl. destruct (Qle_bool m 0); simpl; now rewrite IH.
Qed.

(** The item of a point with its radius and its centre written out. *)
Lemma point_item_explicit (amp : Z) (a : nat) (m : Q) (col : string) :
  amp <> 0%Z ->
  point_item (point_x amp a m) (point_y amp a m) col =
  mkItem (Oval (IZR (SIZE / 2) + Q2R m / IZR amp * IZR RAIO *
                                 cos (IZR (Z.of_nat a) * (PI / 180)) - 2)
               (IZR (SIZE / 2) - Q2R m / IZR amp * IZR RAIO *
                                 sin (IZR (Z.of_nat a) * (PI / 180)) - 2)
               (IZR (SIZE / 2) + Q2R m / IZR amp * IZR RAIO *
                                 cos (IZR (Z.of_nat a) * (PI / 180)) + 2)
               (IZR (SIZE / 2) - Q2R m / IZR amp * IZR RAIO *
                                 sin (IZR (Z.of_nat a) * (PI / 180)) + 2))%R
         (Some col) (Some col) None ["dynamic"%string].
Proof.
  intros Hamp. unfold point_item, point_x, point_y, radians.
  now rewrite (point_radius_real amp m Hamp).
Qed.

End ProjectionCount.

(** C2, with the guard of the loop. For every amplitude [A > 0],
    [_draw_points] raises nothing and adds items to the canvas, and for
    every stored reading with magnitude [m] at the angle [a] (degrees):
    when [m > 0], the item of a point is among those added, whose polar
    radius is [r = (m / A) * RAIO] and whose centre is
    [(cx + r cos a, cy - r sin a)], with [cx = cy = SIZE // 2] and the
    angle in radians, so the point lies on the circle of radius [r] around
    the fixed centre; when [m <= 0], the body of the loop does nothing for
    it, so it has no rendered point: every added item is the point of a
    stored reading above zero, and there are as many added items as stored
    readings above zero. *)
Theorem C2_positive_reading_is_projected :
  forall s : Radar.RadarLuxCam,
    (0 < Radar.amplitude_var s)%Z ->
    let A := Radar.amplitude_var s in
    let cx := IZR (Radar.SIZE / 2) in
    let cy := IZR (Radar.SIZE / 2) in
    let r := fun m : Q => (Q2R m / IZR A * IZR Radar.RAIO)%R in
    let theta := fun a : nat => (IZR (Z.of_nat a) * (PI / 180))%R in
    let x := fun (a : nat) (m : Q) => (cx + r m * cos (theta a))%R in
    let y := fun (a : nat) (m : Q) => (cy - r m * sin (theta a))%R in
    let point := fun (a : nat) (m : Q) =>
      Radar.mkItem
        (Radar.Oval (x a m - 2) (y a m - 2) (x a m + 2) (y a m + 2))
        (Some (Radar.colour_of_green (Radar.green A m)))
        (Some (Radar.colour_of_green (Radar.green A m)))
        None ["dynamic"%string] in
    snd (Radar._draw_points s) = Radar.Ok tt /\
    exists extra : list Radar.item,
      fst (Radar._draw_points s) = Radar.set_canvas (Radar.canvas s ++ extra) s /\
      (forall (a : nat) (m : Q),
          Radar.readings s !! a = Some m -> (0 < m)%Q ->
          In (point a m) extra /\
          ((x a m - cx)² + (y a m - cy)² = (r m)²)%R) /\
      (forall (a : nat) (m : Q),
          Radar.readings s !! a = Some m -> (m <= 0)%Q ->
          forall w : Radar.RadarLuxCam,
            Radar.draw_point A (a, m) w = (w, Radar.Ok tt)) /\
      (forall it : Radar.item,
          In it extra ->
          exists (a : nat) (m : Q),
            Radar.readings s !! a = Some m /\ (0 < m)%Q /\ it = point a m) /\
      length extra =
      length (List.filter (fun m : Q => negb (Qle_bool m 0)) (Radar.readings s)).
Proof.
  intros s HA A cx cy r theta x y point.
  assert (Hne : Radar.amplitude_var s <> 0%Z) by lia.
  rewrite (draw_points_eq s Hne). cbn [fst snd].
  split; [reflexivity|].
  exists (Radar.points_of A (Radar.enumerate (Radar.readings s))).
  split; [reflexivity|]. split; [|split; [|split]].
  - intros a m Hlook Hm. split; [|apply on_circle].
    pose proof (points_of_In A _ a m (enumerate_lookup _ _ _ Hlook) Hm) as Hin.
    rewrite (point_item_explicit A a m _ Hne) in Hin. exact Hin.
  - intros a m _ Hm w. now apply draw_point_nonpositive.
  - intros it Hin.
    destruct (points_of_positive _ _ _ Hin) as (a & m & Hrs & Hm & ->).
    exists a, m. split; [now apply enumerate_In|]. split; [exact Hm|].
    apply (point_item_explicit A a m _ Hne).
  - rewrite points_of_length. unfold Radar.enumerate.
    apply filter_combine_seq_length.
Qed.

Lemma C2_witness :
  (0 < Radar.amplitude_var (Radar.set_readings [500%Q; 0%Q] Radar.initial))%Z /\
  Radar.readings (Radar.set_readings [500%Q; 0%Q] Radar.initial) !! 0%nat
    = Some 500%Q /\
  snd (Radar._draw_points (Radar.set_readings [500%Q; 0%Q] Radar.initial))
    = Radar.Ok tt.
Proof.
  split; [reflexivity|]. split; [reflexivity|].
  exact (proj1 (C2_positive_reading_is_projected
                  (Radar.set_readings [500%Q; 0%Q] Radar.initial) eq_refl)).
Defined.

(** A stored reading of zero has no rendered point: in the initial window
    every reading is zero, the amplitude is 1000, and [_draw_points] creates
    no item. *)
Lemma C2_counterexample :
  Radar.readings Radar.initial !! 0%nat = Some 0%Q /\
  (0 < Radar.amplitude_var Radar.initial)%Z /\
  snd (Radar._draw_points Radar.initial) = Radar.Ok tt /\
  Radar.canvas (fst (Radar._draw_points Radar.initial))
    = Radar.canvas Radar.initial /\
  Radar.dynamic_items (fst (Radar._draw_points Radar.initial)) = [].
Proof. repeat split; reflexivity. Qed.

(** * Further properties *)

(** ** The rolling buffer before it is full, and its newest value *)

(** X1. A buffer of capacity [N] that received the values [xs] from empty
    holds [min (length xs) N] of them; as long as no more than [N] were
    received it holds them all, in the order of insertion. *)
Theorem X1_buffer_length_and_prefix :
  forall (A : Type) (N : nat) (xs : list A),
    length (Deque.items (Deque.extend (Deque.new N) xs)) = Nat.min (length xs) N /\
    (length xs <= N -> Deque.items (Deque.extend (Deque.new N) xs) = xs).
Proof.
  intros A N xs.
  rewrite items_extend_drop by (unfold Deque.bounded; simpl; lia).
  simpl. split.
  - rewrite length_drop. lia.
  - intros Hle. replace (length xs - N) with 0 by lia. reflexivity.
Qed.

Lemma X1_witness :
  length [7; 8] <= 3 /\
  Deque.items (Deque.extend (Deque.new 3) [7; 8]) = [7; 8].
Proof.
  assert (Hle : length [7; 8] <= 3) by (simpl; lia).
  split; [exact Hle|].
  exact (proj2 (X1_buffer_length_and_prefix nat 3 [7; 8]) Hle).
Defined.

Lemma items_append_cases {A} (d : Deque.deque A) (x : A) :
  Deque.bounded d -> 0 < Deque.maxlen d ->
  Deque.items (Deque.append d x) =
  (if Nat.eqb (length (Deque.items d)) (Deque.maxlen d)
   then tail (Deque.items d) else Deque.items d) ++ [x].
Proof.
  unfold Deque.bounded. intros Hb Hpos.
  unfold Deque.append. cbn [Deque.items]. rewrite length_app. simpl.
  destruct (Nat.eqb_spec (length (Deque.items d)) (Deque.maxlen d)) as [He|Hne].
  - destruct (Nat.ltb_spec (Deque.maxlen d) (length (Deque.items d) + 1));
      [|lia].
    destruct (Deque.items d); simpl in *; [lia|reflexivity].
  - destruct (Nat.ltb_spec (Deque.maxlen d) (length (Deque.items d) + 1));
      [lia|reflexivity].
Qed.

Lemma last_item_append {A} (d : Deque.deque A) (x : A) :
  Deque.bounded d -> 0 < Deque.maxlen d ->
  Deque.last_item (Deque.append d x) = Some x.
Proof.
  intros Hb Hpos. unfold Deque.last_item.
  rewrite (items_append_cases d x Hb Hpos). apply last_snoc.
Qed.

(** X2. After [append] on a buffer of capacity at least one, the newest
    value is the one appended and the values before it are the old ones,
    without the oldest when the buffer was full. A buffer of capacity zero
    stays empty. *)
Theorem X2_append_newest_and_eviction :
  forall (A : Type) (d : Deque.deque A) (x : A),
    Deque.bounded d ->
    (0 < Deque.maxlen d ->
     Deque.last_item (Deque.append d x) = Some x /\
     Deque.items (Deque.append d x) =
     (if Nat.eqb (length (Deque.items d)) (Deque.maxlen d)
      then tail (Deque.items d) else Deque.items d) ++ [x]) /\
    (Deque.maxlen d = 0 -> Deque.items (Deque.append d x) = []).
Proof.
  intros A d x Hb. split.
  - intros Hpos. split.
    + now apply last_item_append.
    + now apply items_append_cases.
  - intros Hzero. unfold Deque.bounded in Hb.
    unfold Deque.append. cbn [Deque.items].
    assert (Hnil : Deque.items d = []).
    { destruct (Deque.items d); [reflexivity|simpl in Hb; lia]. }
    rewrite Hnil, Hzero. reflexivity.
Qed.

Lemma X2_witness :
  Deque.bounded (Deque.Deque 2 [4; 5]) /\
  Deque.items (Deque.append (Deque.Deque 2 [4; 5]) 6) = [5; 6].
Proof.
  assert (Hb : Deque.bounded (Deque.Deque 2 [4; 5])).
  { unfold Deque.bounded. simpl. lia. }
  split; [exact Hb|].
  exact (proj2 (proj1 (X2_append_newest_and_eviction nat (Deque.Deque 2 [4; 5]) 6 Hb)
                      ltac:(simpl; lia))).
Defined.

(** ** The temperature monitor along a run *)

Section MonitorRuns.
Import PyNum Deque Temperatura.
Local Open Scope Q_scope.

(** Refreshing the display writes to no buffer, so the buffers after a run
    are those of its turns of [aquisicao]. *)
Lemma run_data a b acts :
  temps a = temps b -> times a = times b -> start_time a = start_time b ->
  temps (run a acts) = temps (aquisicao b (inputs_of acts)) /\
  times (run a acts) = times (aquisicao b (inputs_of acts)) /\
  start_time (run a acts) = start_time (aquisicao b (inputs_of acts)).
Proof.
  revert a b. induction acts as [|[inp|] acts IH]; intros a b Ht Hx Hs.
  - now repeat split.
  - unfold run, aquisicao in *. cbn [fold_left inputs_of step].
    apply IH; unfold aquisicao_iter; cbn [temps times start_time];
      congruence.
  - unfold run in *. cbn [fold_left inputs_of step].
    apply IH; unfold update_gui;
      destruct (last_item (temps a)); cbn [temps times start_time]; assumption.
Qed.

Lemma temps_run now acts :
  items (temps (run (init now) acts)) =
  drop (length (inputs_of acts) - MAX_PONTOS)
       (map (fun i => ler_sensor (draw i)) (inputs_of acts)).
Proof.
  destruct (run_data (init now) (init now) acts eq_refl eq_refl eq_refl)
    as (-> & _ & _).
  rewrite temps_aquisicao.
  rewrite items_extend_drop by (unfold bounded; simpl; lia).
  simpl. now rewrite length_map.
Qed.

Lemma times_run now acts :
  items (times (run (init now) acts)) =
  drop (length (inputs_of acts) - MAX_PONTOS)
       (map (fun i => clock i - now) (inputs_of acts)).
Proof.
  destruct (run_data (init now) (init now) acts eq_refl eq_refl eq_refl)
    as (_ & -> & _).
  rewrite times_aquisicao.
  rewrite items_extend_drop by (unfold bounded; simpl; lia).
  simpl. now rewrite length_map.
Qed.

Lemma StronglySorted_drop {A} (R : A -> A -> Prop) (n : nat) (l : list A) :
  StronglySorted R l -> StronglySorted R (drop n l).
Proof.
  revert n. induction l as [|x l IH]; intros n Hs; destruct n; simpl;
    try assumption; try constructor.
  apply IH. now inversion Hs.
Qed.

Lemma StronglySorted_map_mono {A B} (R : A -> A -> Prop) (S : B -> B -> Prop)
    (f : A -> B) (l : list A) :
  (forall x y, R x y -> S (f x) (f y)) ->
  StronglySorted R l -> StronglySorted S (map f l).
Proof.
  intros Hf Hs. induction Hs as [|x l Hs IH Hall]; simpl; constructor.
  - exact IH.
  - clear -Hf Hall. induction Hall; simpl; constructor; auto.
Qed.

Lemma round_tenths (k : Z) : round_half_even (inject_Z k / 10 * 10) = k.
Proof.
  assert (He : inject_Z k / 10 * 10 == inject_Z k) by (field; discriminate).
  unfold round_half_even. rewrite (Qfloor_comp _ _ He), Qfloor_Z.
  destruct (Qcompare_spec (inject_Z k / 10 * 10 - inject_Z k) (1 # 2));
    [lra|reflexivity|lra].
Qed.

(** The format with one decimal place prints a number of tenths digit for
    digit. *)
Lemma format_1f_tenths (k : Z) :
  (0 <= k)%Z ->
  format_1f (inject_Z k / 10) =
  String.append (string_of_Z (k / 10))
                (String.append "." (string_of_Z (k mod 10))).
Proof.
  intros Hk. unfold format_1f. rewrite round_tenths, Z.abs_eq by exact Hk.
  assert (Hq : Qle_bool 0 (inject_Z k / 10) = true).
  { apply Qle_bool_iff. apply Qle_shift_div_l; [reflexivity|].
    rewrite Zle_Qle in Hk. change (inject_Z 0) with 0 in Hk. lra. }
  now rewrite Hq.
Qed.

Lemma bounded_temps_run now acts : bounded (temps (run (init now) acts)).
Proof.
  unfold bounded. rewrite temps_run.
  destruct (run_data (init now) (init now) acts eq_refl eq_refl eq_refl)
    as (-> & _ & _).
  rewrite temps_aquisicao, maxlen_extend, length_drop, length_map. simpl. lia.
Qed.

Lemma maxlen_temps_run now acts :
  maxlen (temps (run (init now) acts)) = MAX_PONTOS.
Proof.
  destruct (run_data (init now) (init now) acts eq_refl eq_refl eq_refl)
    as (-> & _ & _).
  now rewrite temps_aquisicao, maxlen_extend.
Qed.

End MonitorRuns.

(** X3. After any actions of the monitor from a fresh window, refreshes
    of the display anywhere among them, the two buffers hold what the turns
    of [aquisicao] alone give: the last 120 readings of the sensor and the
    last 120 elapsed times, in the order of the turns. *)
Theorem X3_buffers_follow_the_turns :
  forall (now : Q) (acts : list Temperatura.Action),
    Deque.items (Temperatura.temps (Temperatura.run (Temperatura.init now) acts)) =
    drop (length (Temperatura.inputs_of acts) - 120)
         (map (fun i => Temperatura.ler_sensor (Temperatura.draw i))
              (Temperatura.inputs_of acts)) /\
    Deque.items (Temperatura.times (Temperatura.run (Temperatura.init now) acts)) =
    drop (length (Temperatura.inputs_of acts) - 120)
         (map (fun i => (Temperatura.clock i - now)%Q)
              (Temperatura.inputs_of acts)).
Proof.
  intros now acts. split; [apply temps_run|apply times_run].
Qed.

Section ThreadFacts.
Import Deque Temperatura.

Lemma length_items_append {A} (d : deque A) (x : A) :
  bounded d ->
  length (items (append d x)) = Nat.min (length (items d) + 1) (maxlen d).
Proof.
  intros Hb. rewrite (items_append_drop d x Hb), length_drop, length_app.
  unfold bounded in Hb. simpl. lia.
Qed.

Lemma threads_inv_init now : threads_inv (threads_init now).
Proof. unfold threads_inv. cbn. repeat split; lia. Qed.

Lemma threads_inv_step w m : threads_inv w -> threads_inv (micro_step w m).
Proof.
  unfold threads_inv, MAX_PONTOS.
  intros (Hmt & Hmx & Hn & Hm & Hp & Hl).
  destruct m as [inp| |]; unfold micro_step.
  - destruct (pending w) as [t|] eqn:Hpend.
    + rewrite Hpend. now repeat split.
    + cbn [window pending temps times line_data].
      rewrite maxlen_append, length_items_append by (unfold bounded; lia).
      rewrite Hmt, <- Hp. repeat split; try assumption; lia.
  - destruct (pending w) as [t|] eqn:Hpend.
    + cbn [window pending temps times line_data].
      rewrite maxlen_append, length_items_append by (unfold bounded; lia).
      rewrite Hmx. repeat split; try assumption; lia.
    + rewrite Hpend. now repeat split.
  - cbn [window pending]. unfold update_gui.
    destruct (last_item (temps (window w)));
      cbn [temps times line_data fst snd];
      repeat split; try assumption.
    all: destruct (pending w); lia.
Qed.

Lemma threads_inv_run ms w : threads_inv w -> threads_inv (micro_run w ms).
Proof.
  revert w. induction ms as [|m ms IH]; intros w Hw; [exact Hw|].
  unfold micro_run in *. cbn [fold_left]. now apply IH, threads_inv_step.
Qed.

End ThreadFacts.

(** X4. With the two appends of a turn of [aquisicao] as separate steps and
    refreshes of the display at any point between them: the buffer of the
    temperatures never holds more than 120 values and never fewer than the
    buffer of the times, and at most one more; the two have the same
    length whenever no turn is half done, and the two steps of a turn one
    after the other do what the whole turn does. The line of the plot gets
    at most one ordinate more than abscissas, and it does get one more when
    the refresh comes between the two appends of the first turn. *)
Theorem X4_buffer_lengths_between_the_appends :
  (forall (now : Q) (ms : list Temperatura.Micro),
      let w := Temperatura.micro_run (Temperatura.threads_init now) ms in
      let n := length (Deque.items (Temperatura.temps (Temperatura.window w))) in
      let m := length (Deque.items (Temperatura.times (Temperatura.window w))) in
      n <= 120 /\ m <= n <= m + 1 /\
      (Temperatura.pending w = None -> n = m) /\
      length (fst (Temperatura.line_data (Temperatura.window w)))
      <= length (snd (Temperatura.line_data (Temperatura.window w)))
      <= length (fst (Temperatura.line_data (Temperatura.window w))) + 1) /\
  (forall (w : Temperatura.Threads) (inp : Temperatura.Leitura),
      Temperatura.pending w = None ->
      Temperatura.micro_run w [Temperatura.TurnBegins inp; Temperatura.TurnEnds] =
      Temperatura.mkThreads
        (Temperatura.aquisicao_iter (Temperatura.window w) inp) None) /\
  (forall (now : Q) (inp : Temperatura.Leitura),
      Temperatura.line_data
        (Temperatura.window
           (Temperatura.micro_run (Temperatura.threads_init now)
              [Temperatura.TurnBegins inp; Temperatura.Refresh])) =
      ([], [Temperatura.ler_sensor (Temperatura.draw inp)])).
Proof.
  split; [|split].
  - intros now ms w n m.
    pose proof (threads_inv_run ms _ (threads_inv_init now)) as Hinv.
    fold w in Hinv. unfold Temperatura.threads_inv, Temperatura.MAX_PONTOS in Hinv.
    destruct Hinv as (_ & _ & Hn & Hm & Hp & Hl). subst n m.
    split; [exact Hn|]. split; [|split; [|exact Hl]].
    + destruct (Temperatura.pending w); lia.
    + intros Hnone. now rewrite Hnone in Hp.
  - intros w inp Hnone. unfold Temperatura.micro_run. cbn [fold_left].
    unfold Temperatura.micro_step at 2. rewrite Hnone.
    unfold Temperatura.micro_step.
    cbn [Temperatura.window Temperatura.pending Temperatura.temps
         Temperatura.times Temperatura.start_time Temperatura.valor_lbl
         Temperatura.line_data].
    reflexivity.
  - intros now inp. reflexivity.
Qed.

Lemma X4_witness :
  Temperatura.pending (Temperatura.threads_init 0) = None /\
  Temperatura.micro_run (Temperatura.threads_init 0)
    [Temperatura.TurnBegins (Temperatura.mkLeitura (1 # 3) 1); Temperatura.TurnEnds] =
  Temperatura.mkThreads
    (Temperatura.aquisicao_iter
       (Temperatura.window (Temperatura.threads_init 0))
       (Temperatura.mkLeitura (1 # 3) 1)) None.
Proof.
  split; [reflexivity|].
  exact (proj1 (proj2 X4_buffer_lengths_between_the_appends)
               (Temperatura.threads_init 0)
               (Temperatura.mkLeitura (1 # 3) 1) eq_refl).
Defined.

(** X5. When the clock readings of the turns do not decrease, the times in
    the buffer do not decrease either: the abscissas of the plot are
    sorted. *)
Theorem X5_times_sorted :
  forall (now : Q) (acts : list Temperatura.Action),
    StronglySorted Qle (map Temperatura.clock (Temperatura.inputs_of acts)) ->
    StronglySorted Qle
      (Deque.items (Temperatura.times (Temperatura.run (Temperatura.init now) acts))).
Proof.
  intros now acts Hs. rewrite times_run. apply StronglySorted_drop.
  rewrite <- (map_map Temperatura.clock (fun c => (c - now)%Q)).
  apply (StronglySorted_map_mono Qle Qle); [|exact Hs].
  intros x y Hxy. lra.
Qed.

Lemma X5_witness :
  StronglySorted Qle
    (map Temperatura.clock
         (Temperatura.inputs_of
            [Temperatura.Aquisicao (Temperatura.mkLeitura (1 # 2) 11);
             Temperatura.UpdateGui;
             Temperatura.Aquisicao (Temperatura.mkLeitura (1 # 4) 12)])) /\
  StronglySorted Qle
    (Deque.items
       (Temperatura.times
          (Temperatura.run (Temperatura.init 10)
             [Temperatura.Aquisicao (Temperatura.mkLeitura (1 # 2) 11);
              Temperatura.UpdateGui;
              Temperatura.Aquisicao (Temperatura.mkLeitura (1 # 4) 12)]))).
Proof.
  assert (Hs : StronglySorted Qle
                 (map Temperatura.clock
                    (Temperatura.inputs_of
                       [Temperatura.Aquisicao (Temperatura.mkLeitura (1 # 2) 11);
                        Temperatura.UpdateGui;
                        Temperatura.Aquisicao (Temperatura.mkLeitura (1 # 4) 12)]))).
  { simpl. repeat constructor. discriminate. }
  split; [exact Hs|].
  exact (X5_times_sorted 10 _ Hs).
Defined.

(** X6. A refresh of the display right after a turn of [aquisicao] shows
    the reading of that turn: the label is the reading printed with one
    decimal place and the unit, digit for digit the number of tenths that
    the sensor returned, and the line of the plot gets the two buffers as
    they are after the turn. On a fresh window, before any turn, a refresh
    changes nothing. *)
Theorem X6_display_shows_latest_reading :
  (forall (now : Q) (acts : list Temperatura.Action) (inp : Temperatura.Leitura),
      Temperatura.unit_draw (Temperatura.draw inp) ->
      let app := Temperatura.aquisicao_iter
                   (Temperatura.run (Temperatura.init now) acts) inp in
      exists k : Z,
        (240 <= k <= 300)%Z /\
        Temperatura.ler_sensor (Temperatura.draw inp) = (inject_Z k / 10)%Q /\
        Temperatura.valor_lbl (Temperatura.update_gui app) =
        String.append
          (String.append (PyNum.string_of_Z (k / 10))
                         (String.append "." (PyNum.string_of_Z (k mod 10))))
          " °C" /\
        Temperatura.line_data (Temperatura.update_gui app) =
        (Deque.items (Temperatura.times app), Deque.items (Temperatura.temps app))) /\
  (forall now : Q,
      Temperatura.update_gui (Temperatura.init now) = Temperatura.init now).
Proof.
  split; [|reflexivity].
  intros now acts inp Hu app.
  destruct (ler_sensor_tenths _ Hu) as (k & Hk & Hs).
  exists k. split; [exact Hk|]. split; [exact Hs|].
  assert (Hlast : Deque.last_item (Temperatura.temps app) =
                  Some (Temperatura.ler_sensor (Temperatura.draw inp))).
  { unfold app, Temperatura.aquisicao_iter. cbn [Temperatura.temps].
    apply last_item_append; [apply bounded_temps_run|].
    rewrite maxlen_temps_run. unfold Temperatura.MAX_PONTOS. lia. }
  unfold Temperatura.update_gui. rewrite Hlast.
  cbn [Temperatura.valor_lbl Temperatura.line_data].
  split; [|reflexivity].
  rewrite Hs, format_1f_tenths by lia. reflexivity.
Qed.

Lemma X6_witness :
  Temperatura.unit_draw (1 # 3) /\
  exists k : Z,
    (240 <= k <= 300)%Z /\
    Temperatura.valor_lbl
      (Temperatura.update_gui
         (Temperatura.aquisicao_iter (Temperatura.init 0)
                                     (Temperatura.mkLeitura (1 # 3) 1)))
    = String.append
        (String.append (PyNum.string_of_Z (k / 10))
                       (String.append "." (PyNum.string_of_Z (k mod 10))))
        " °C".
Proof.
  assert (Hu : Temperatura.unit_draw (1 # 3)).
  { unfold Temperatura.unit_draw. split; [discriminate|reflexivity]. }
  split; [exact Hu|].
  destruct (proj1 X6_display_shows_latest_reading 0%Q []
                  (Temperatura.mkLeitura (1 # 3) 1) Hu)
    as (k & Hk & _ & Hlbl & _).
  exists k. split; [exact Hk|exact Hlbl].
Defined.

(** ** The radar: the canvas along a tick *)

Section CanvasFacts.
Import PyNum Radar.
Local Open Scope Z_scope.
Implicit Types (s : RadarLuxCam) (cam : CamRead).

Lemma filter_all {A} (f : A -> bool) (l : list A) :
  forallb f l = true -> List.filter f l = l.
Proof.
  induction l as [|x l IH]; [reflexivity|]. simpl.
  intros H. apply andb_prop in H as [Hx Hl]. rewrite Hx. now rewrite IH.
Qed.

Lemma filter_none {A} (f : A -> bool) (l : list A) :
  forallb f l = true -> List.filter (fun x => negb (f x)) l = [].
Proof.
  induction l as [|x l IH]; [reflexivity|]. simpl.
  intros H. apply andb_prop in H as [Hx Hl]. rewrite Hx. simpl. now apply IH.
Qed.

Lemma points_of_dynamic amp rs :
  forallb (has_tag "dynamic") (points_of amp rs) = true.
Proof.
  induction rs as [|[a m] rs IH]; [reflexivity|].
  rewrite points_of_cons, forallb_app, IH, andb_true_r.
  unfold points_of. simpl. now destruct (Qle_bool m 0).
Qed.

(** Whatever the amplitude, drawing a point leaves the canvas as it was or
    adds one dynamic item. *)
Lemma draw_point_extra amp p s :
  exists extra r,
    draw_point amp p s = (set_canvas (canvas s ++ extra) s, r) /\
    forallb (has_tag "dynamic") extra = true.
Proof.
  assert (Hsame : forall r : result unit,
             (s, r) = (set_canvas (canvas s ++ []) s, r)).
  { intros r. now rewrite app_nil_r, set_canvas_id. }
  destruct p as [ang lux]. unfold draw_point.
  destruct (Qle_bool lux 0).
  - exists [], (Ok tt). split; [apply Hsame|reflexivity].
  - destruct (amp =? 0).
    + exists [], (Raise ZeroDivisionError). split; [apply Hsame|reflexivity].
    + destruct (Z.eq_dec (amplitude_var s) 0) as [Hz|Hnz].
      * rewrite (bindM_raise _ _ _ _ _ (lux_to_color_zero lux s Hz)).
        exists [], (Raise ZeroDivisionError). split; [apply Hsame|reflexivity].
      * rewrite (bindM_ok _ _ _ _ _ (lux_to_color_eq lux s Hnz)).
        eexists [_], (Ok tt). split; reflexivity.
Qed.

Lemma for_each_draw_point_extra amp rs s :
  exists extra r,
    for_each rs (draw_point amp) s = (set_canvas (canvas s ++ extra) s, r) /\
    forallb (has_tag "dynamic") extra = true.
Proof.
  revert s. induction rs as [|p rs IH]; intros s.
  - exists [], (Ok tt). split; [|reflexivity].
    simpl. unfold retM. now rewrite app_nil_r, set_canvas_id.
  - cbn [for_each].
    destruct (draw_point_extra amp p s) as (e1 & r1 & Hp & Hd1).
    destruct r1 as [[]|e].
    + rewrite (bindM_ok _ _ _ _ _ Hp).
      destruct (IH (set_canvas (canvas s ++ e1) s)) as (e2 & r2 & Hrs & Hd2).
      exists (e1 ++ e2), r2. split.
      * rewrite Hrs. cbn [canvas set_canvas]. rewrite set_canvas_twice.
        now rewrite app_assoc.
      * now rewrite forallb_app, Hd1, Hd2.
    + rewrite (bindM_raise _ _ _ _ _ Hp). now exists e1, (Raise e).
Qed.

Lemma draw_points_extra s :
  exists extra r,
    _draw_points s = (set_canvas (canvas s ++ extra) s, r) /\
    forallb (has_tag "dynamic") extra = true.
Proof.
  unfold _draw_points, bindM at 1 2, gets.
  apply for_each_draw_point_extra.
Qed.

(** A tick of a running radar clears the dynamic items and adds dynamic
    items only, whether it completes or not. *)
Lemma update_running_canvas cam s rs' :
  running s = true ->
  list_setitem (readings s) (angle s) (lux_read cam (amplitude_var s)) = Ok rs' ->
  exists extra,
    canvas (fst (_update cam s)) =
    List.filter (fun it => negb (has_tag "dynamic" it)) (canvas s) ++ extra /\
    forallb (has_tag "dynamic") extra = true.
Proof.
  intros Hr Hset. unfold _update. rewrite bind_gets, Hr. cbn [negb].
  rewrite (bindM_ok _ _ _ _ _ (read_lux_eq cam s)).
  rewrite !bind_gets, Hset, bind_lift_ok, !bind_modify.
  unfold canvas_delete. rewrite bind_modify.
  match goal with |- context [bindM _draw_points _ ?s1] =>
    destruct (draw_points_extra s1) as (extra & r & Hdraw & Hdyn) end.
  destruct r as [[]|e].
  - rewrite (bindM_ok _ _ _ _ _ Hdraw).
    rewrite (bindM_ok _ _ _ _ _ (draw_beam_eq _)).
    rewrite !bind_gets, bind_modify, schedule_next_running by exact Hr.
    exists (extra ++ [beam_item (angle s)]). split.
    + cbn [fst]. rewrite app_assoc. reflexivity.
    + now rewrite forallb_app, Hdyn.
  - rewrite (bindM_raise _ _ _ _ _ Hdraw). exists extra. split; [reflexivity|exact Hdyn].
Qed.

Lemma static_items_app_dynamic (c extra : list item) :
  forallb (has_tag "dynamic") extra = true ->
  List.filter (fun it => negb (has_tag "dynamic" it))
    (List.filter (fun it => negb (has_tag "dynamic" it)) c ++ extra) =
  List.filter (fun it => negb (has_tag "dynamic" it)) c.
Proof.
  intros Hdyn. rewrite List.filter_app, filter_twice.
  rewrite (filter_none _ _ Hdyn). apply app_nil_r.
Qed.

(** A tick leaves the items that are not dynamic as they were. *)
Lemma update_static cam s :
  static_items (fst (_update cam s)) = static_items s.
Proof.
  destruct (running s) eqn:Hr; [|now rewrite update_stopped].
  destruct (list_setitem (readings s) (angle s) (lux_read cam (amplitude_var s)))
    as [rs'|e] eqn:Hset.
  - destruct (update_running_canvas cam s rs' Hr Hset) as (extra & Hc & Hdyn).
    unfold static_items. rewrite Hc. now apply static_items_app_dynamic.
  - now rewrite (update_index_error cam s e Hr Hset).
Qed.

Lemma handle_static s e : static_items (handle s e) = static_items s.
Proof.
  destruct e as [| | |v|v|v|i cam]; try reflexivity.
  - cbn [handle]. destruct (running s) eqn:Hr.
    + now rewrite start_running.
    + now rewrite start_stopped.
  - cbn [handle]. rewrite reset_eq. unfold static_items. cbn [fst canvas].
    apply filter_twice.
  - cbn [handle]. destruct (timers s !! i); [|reflexivity].
    now rewrite update_static.
Qed.

Lemma mainloop_static es s : static_items (mainloop s es) = static_items s.
Proof.
  revert s. induction es as [|e es IH]; intros s; [reflexivity|].
  unfold mainloop in *. cbn [fold_left]. now rewrite IH, handle_static.
Qed.

End CanvasFacts.

(** ** The radar: readings, points and beam *)

Section ReadingFacts.
Import PyNum Radar.
Implicit Types (s : RadarLuxCam) (cam : CamRead).

Lemma lux_read_range cam (amp : Z) :
  (0 <= amp)%Z ->
  (0 <= mean_intensity cam)%Q -> (mean_intensity cam <= 255)%Q ->
  (0 <= lux_read cam amp)%Q /\ (lux_read cam amp <= inject_Z amp)%Q.
Proof.
  intros Hamp Hlo Hhi. unfold lux_read.
  assert (Ha : (0 <= inject_Z amp)%Q).
  { change 0%Q with (inject_Z 0). now rewrite <- Zle_Qle. }
  destruct (negb (ret cam)); [split; [discriminate|exact Ha]|].
  assert (Hf0 : (0 <= mean_intensity cam / 255)%Q).
  { apply Qle_shift_div_l; [reflexivity|]. lra. }
  assert (Hf1 : (mean_intensity cam / 255 <= 1)%Q).
  { apply Qle_shift_div_r; [reflexivity|]. lra. }
  split.
  - now apply Qmult_le_0_compat.
  - rewrite <- (Qmult_1_l (inject_Z amp)) at 2.
    now apply Qmult_le_compat_r.
Qed.

Lemma radius_range (A : Z) (m : Q) :
  (0 < A)%Z -> (0 <= m)%Q -> (m <= inject_Z A)%Q ->
  (0 <= Q2R (point_radius A m) <= 228)%R.
Proof.
  intros HA Hm0 Hm1.
  rewrite point_radius_real by lia.
  change RAIO with 228%Z.
  assert (Ha : (0 < IZR A)%R) by now apply IZR_lt.
  apply Qle_Rle in Hm0, Hm1. rewrite Q2R_inject_Z in Hm1.
  change (Q2R 0) with (Q2R (inject_Z 0)) in Hm0. rewrite Q2R_inject_Z in Hm0.
  assert (Hq0 : (0 <= Q2R m / IZR A)%R).
  { apply Rmult_le_pos; [exact Hm0|]. left. now apply Rinv_0_lt_compat. }
  assert (Hq1 : (Q2R m / IZR A <= 1)%R).
  { apply (Rmult_le_reg_r (IZR A)); [exact Ha|].
    unfold Rdiv. rewrite Rmult_assoc, Rinv_l by lra. lra. }
  split; nra.
Qed.

End ReadingFacts.

(** X7. When the mean intensity of the frame is between 0 and 255 and the
    amplitude is not negative, the reading that [_read_lux_from_camera]
    returns lies between 0 and the amplitude, whether the camera gave a
    frame or not; the window is not written to. *)
Theorem X7_reading_between_zero_and_amplitude :
  forall (s : Radar.RadarLuxCam) (cam : Radar.CamRead),
    (0 <= Radar.amplitude_var s)%Z ->
    (0 <= Radar.mean_intensity cam)%Q ->
    (Radar.mean_intensity cam <= 255)%Q ->
    exists lux : Q,
      Radar._read_lux_from_camera cam s = (s, Radar.Ok lux) /\
      (0 <= lux)%Q /\ (lux <= inject_Z (Radar.amplitude_var s))%Q.
Proof.
  intros s cam Hamp Hlo Hhi.
  exists (Radar.lux_read cam (Radar.amplitude_var s)).
  split; [apply read_lux_eq|].
  now apply lux_read_range.
Qed.

Lemma X7_witness :
  (0 <= Radar.amplitude_var Radar.initial)%Z /\
  exists lux : Q,
    Radar._read_lux_from_camera (Radar.mkCamRead true 128) Radar.initial
      = (Radar.initial, Radar.Ok lux) /\
    (0 <= lux)%Q /\ (lux <= inject_Z (Radar.amplitude_var Radar.initial))%Q.
Proof.
  assert (Hamp : (0 <= Radar.amplitude_var Radar.initial)%Z).
  { change (Radar.amplitude_var Radar.initial) with 1000%Z. lia. }
  split; [exact Hamp|].
  exact (X7_reading_between_zero_and_amplitude Radar.initial
           (Radar.mkCamRead true 128) Hamp ltac:(discriminate) ltac:(discriminate)).
Defined.

(** X8. The point of a reading between 0 (excluded) and the amplitude
    (included) has a radius between 0 and [RAIO], so its centre stays
    inside the outer circle: both coordinates are at least [MARGEM] and at
    most [SIZE - MARGEM], within the canvas. *)
Theorem X8_points_inside_the_canvas :
  forall (A : Z) (a : nat) (m : Q),
    (0 < A)%Z -> (0 < m)%Q -> (m <= inject_Z A)%Q ->
    (0 <= Q2R (Radar.point_radius A m) <= IZR Radar.RAIO)%R /\
    (IZR Radar.MARGEM <= Radar.point_x A a m <= IZR (Radar.SIZE - Radar.MARGEM))%R /\
    (IZR Radar.MARGEM <= Radar.point_y A a m <= IZR (Radar.SIZE - Radar.MARGEM))%R.
Proof.
  intros A a m HA Hm0 Hm1.
  assert (Hr : (0 <= Q2R (Radar.point_radius A m) <= 228)%R).
  { apply radius_range; [exact HA|lra|exact Hm1]. }
  unfold Radar.point_x, Radar.point_y.
  change (IZR (Radar.SIZE / 2)) with 240%R.
  change (IZR Radar.RAIO) with 228%R.
  change (IZR Radar.MARGEM) with 12%R.
  change (IZR (Radar.SIZE - Radar.MARGEM)) with 468%R.
  set (r := Q2R (Radar.point_radius A m)) in *.
  set (theta := Radar.radians (IZR (Z.of_nat a))).
  pose proof (COS_bound theta) as Hc. pose proof (SIN_bound theta) as Hs.
  split; [exact Hr|]. split; split; nra.
Qed.

Lemma X8_witness :
  (0 < 1000)%Z /\ (0 < 500)%Q /\ (500 <= inject_Z 1000)%Q /\
  (IZR Radar.MARGEM <= Radar.point_x 1000 45 500
   <= IZR (Radar.SIZE - Radar.MARGEM))%R.
Proof.
  split; [reflexivity|]. split; [reflexivity|]. split; [discriminate|].
  exact (proj1 (proj2 (X8_points_inside_the_canvas 1000 45 500 eq_refl eq_refl
                         ltac:(discriminate)))).
Defined.

(** X9. [_draw_beam] adds one item to the canvas and writes nothing else:
    a dynamic line from the centre to the point of the outer circle, at
    the distance [RAIO] from the centre, at the angle of the cursor. *)
Theorem X9_beam_reaches_the_outer_circle :
  forall s : Radar.RadarLuxCam,
    let cx := IZR (Radar.SIZE / 2) in
    let cy := IZR (Radar.SIZE / 2) in
    let theta := (IZR (Radar.angle s) * (PI / 180))%R in
    let x := (cx + IZR Radar.RAIO * cos theta)%R in
    let y := (cy - IZR Radar.RAIO * sin theta)%R in
    Radar._draw_beam s =
    (Radar.set_canvas
       (Radar.canvas s ++
        [Radar.mkItem (Radar.Line cx cy x y) (Some "#00ff00"%string) None
                      (Some 2%Z) ["dynamic"%string]]) s,
     Radar.Ok tt) /\
    ((x - cx)² + (y - cy)² = (IZR Radar.RAIO)²)%R /\
    Radar.static_items (fst (Radar._draw_beam s)) = Radar.static_items s.
Proof.
  intros s cx cy theta x y. split; [reflexivity|]. split.
  - apply on_circle.
  - rewrite draw_beam_eq. unfold Radar.static_items.
    cbn [fst Radar.canvas Radar.set_canvas].
    rewrite List.filter_app. cbn. apply app_nil_r.
Qed.

Section HexFacts.
Import PyNum.

(** The two characters that [f"{g:02x}"] prints for a green from 0 to 255
    are the hexadecimal digits of [g // 16] and of [g % 16]. *)
Lemma format_02x_digits (g : Z) :
  (0 <= g <= 255)%Z ->
  exists c1 c2 : ascii,
    String.get (Z.to_nat (g / 16)) "0123456789abcdef" = Some c1 /\
    String.get (Z.to_nat (g mod 16)) "0123456789abcdef" = Some c2 /\
    format_02x g = String c1 (String c2 EmptyString).
Proof.
  intros Hg.
  assert (Hall :
    forallb
      (fun n : nat =>
         match String.get (Z.to_nat (Z.of_nat n / 16)) "0123456789abcdef",
               String.get (Z.to_nat (Z.of_nat n mod 16)) "0123456789abcdef"
         with
         | Some c1, Some c2 =>
             String.eqb (format_02x (Z.of_nat n)) (String c1 (String c2 EmptyString))
         | _, _ => false
         end)
      (seq 0 256) = true) by (vm_compute; reflexivity).
  rewrite forallb_forall in Hall.
  specialize (Hall (Z.to_nat g)).
  rewrite Z2Nat.id in Hall by lia.
  assert (Hin : In (Z.to_nat g) (seq 0 256)) by (apply in_seq; lia).
  specialize (Hall Hin).
  destruct (String.get (Z.to_nat (g / 16)) "0123456789abcdef") as [c1|];
    [|discriminate].
  destruct (String.get (Z.to_nat (g mod 16)) "0123456789abcdef") as [c2|];
    [|discriminate].
  exists c1, c2. split; [reflexivity|]. split; [reflexivity|].
  now apply String.eqb_eq.
Qed.

End HexFacts.

(** X17. For an amplitude that is not zero, the colour that
    [_lux_to_color] returns is a well-formed colour of seven characters:
    [#00], then the two hexadecimal digits of the green [g], the digit of
    [g // 16] and the digit of [g % 16] in lower case, then [00]; the
    window is not written to. *)
Theorem X17_colour_is_well_formed :
  forall (s : Radar.RadarLuxCam) (lux : Q),
    Radar.amplitude_var s <> 0%Z ->
    exists (g : Z) (c1 c2 : ascii),
      g = Radar.green (Radar.amplitude_var s) lux /\
      (0 <= g <= 255)%Z /\
      String.get (Z.to_nat (g / 16)) "0123456789abcdef" = Some c1 /\
      String.get (Z.to_nat (g mod 16)) "0123456789abcdef" = Some c2 /\
      Radar._lux_to_color lux s =
      (s, Radar.Ok (String.append "#00"
                      (String.append (String c1 (String c2 EmptyString)) "00"))) /\
      String.length
        (String.append "#00"
           (String.append (String c1 (String c2 EmptyString)) "00")) = 7.
Proof.
  intros s lux Hamp.
  pose proof (green_between (Radar.amplitude_var s) lux) as Hg.
  destruct (format_02x_digits _ Hg) as (c1 & c2 & H1 & H2 & Hf).
  exists (Radar.green (Radar.amplitude_var s) lux), c1, c2.
  split; [reflexivity|]. split; [exact Hg|]. split; [exact H1|].
  split; [exact H2|]. split; [|reflexivity].
  rewrite (lux_to_color_eq lux s Hamp). unfold Radar.colour_of_green.
  now rewrite Hf.
Qed.

Lemma X17_witness :
  Radar.amplitude_var Radar.initial <> 0%Z /\
  exists (g : Z) (c1 c2 : ascii),
    g = Radar.green (Radar.amplitude_var Radar.initial) 500 /\
    String.get (Z.to_nat (g / 16)) "0123456789abcdef" = Some c1 /\
    String.get (Z.to_nat (g mod 16)) "0123456789abcdef" = Some c2 /\
    Radar._lux_to_color 500 Radar.initial =
    (Radar.initial,
     Radar.Ok (String.append "#00"
                 (String.append (String c1 (String c2 EmptyString)) "00"))).
Proof.
  assert (Hamp : Radar.amplitude_var Radar.initial <> 0%Z).
  { change (Radar.amplitude_var Radar.initial) with 1000%Z. discriminate. }
  split; [exact Hamp|].
  destruct (X17_colour_is_well_formed Radar.initial 500 Hamp)
    as (g & c1 & c2 & Hg & _ & H1 & H2 & Hc & _).
  exists g, c1, c2. now repeat split.
Defined.

(** ** The radar along a run *)

Section RunFacts.
Import PyNum Radar.
Local Open Scope Z_scope.
Implicit Types (s : RadarLuxCam) (cam : CamRead).

(** A tick writes to no variable of the control panel. *)
Lemma update_vars cam s :
  amplitude_var (fst (_update cam s)) = amplitude_var s /\
  sweep_var (fst (_update cam s)) = sweep_var s /\
  interval_var (fst (_update cam s)) = interval_var s /\
  running (fst (_update cam s)) = running s.
Proof.
  destruct (running s) eqn:Hr.
  - destruct (list_setitem (readings s) (angle s) (lux_read cam (amplitude_var s)))
      as [rs'|e] eqn:Hset.
    + destruct (update_running_frame cam s _ Hr Hset)
        as (c & a & ts & r & -> & _). now repeat split.
    + rewrite (update_index_error cam s e Hr Hset). now repeat split.
  - rewrite update_stopped by exact Hr. now repeat split.
Qed.

(** On a window with the invariant and an amplitude that is not zero, a
    tick raises nothing. *)
Lemma update_ok cam s :
  wf s -> amplitude_var s <> 0 -> snd (_update cam s) = Ok tt.
Proof.
  intros Hwf Hamp. destruct (running s) eqn:Hr.
  - now rewrite (update_running cam s _ Hr Hamp (wf_setitem s _ Hwf)).
  - now rewrite update_stopped.
Qed.


Lemma handle_vars s e :
  ui_event e ->
  100 <= amplitude_var s <= 5000 ->
  1 <= sweep_var s <= 10 ->
  20 <= interval_var s <= 200 ->
  100 <= amplitude_var (handle s e) <= 5000 /\
  1 <= sweep_var (handle s e) <= 10 /\
  20 <= interval_var (handle s e) <= 200.
Proof.
  intros He Ha Hs Hi. destruct e as [| | |v|v|v|i cam]; cbn [handle ui_event] in *.
  - destruct (running s) eqn:Hr.
    + rewrite start_running by exact Hr. now repeat split.
    + rewrite start_stopped by exact Hr. now repeat split.
  - now repeat split.
  - rewrite reset_eq. now repeat split.
  - now repeat split.
  - now repeat split.
  - now repeat split.
  - destruct (timers s !! i); [|now repeat split].
    destruct (update_vars cam (set_timers (delete i (timers s)) s))
      as (-> & -> & -> & _).
    now repeat split.
Qed.

Lemma mainloop_vars es s :
  Forall ui_event es ->
  100 <= amplitude_var s <= 5000 ->
  1 <= sweep_var s <= 10 ->
  20 <= interval_var s <= 200 ->
  100 <= amplitude_var (mainloop s es) <= 5000 /\
  1 <= sweep_var (mainloop s es) <= 10 /\
  20 <= interval_var (mainloop s es) <= 200.
Proof.
  revert s. induction es as [|e es IH]; intros s Hes Ha Hs Hi;
    [now repeat split|].
  inversion Hes as [|e' es' He Hes']; subst.
  destruct (handle_vars s e He Ha Hs Hi) as (Ha' & Hs' & Hi').
  unfold mainloop in *. cbn [fold_left]. now apply IH.
Qed.

(** On a stopped radar a timer that fires only disappears. *)
Lemma stopped_timer_fires s cam :
  running s = false ->
  handle s (TimerFires 0 cam) = set_timers (drop 1 (timers s)) s.
Proof.
  intros Hr. cbn [handle]. destruct (timers s) as [|t ts] eqn:Ht.
  - cbn. apply radar_ext; try reflexivity. exact Ht.
  - cbn [lookup list_lookup]. rewrite update_stopped by exact Hr.
    reflexivity.
Qed.

Lemma stopped_timers_fire cams s :
  running s = false ->
  mainloop s (map (TimerFires 0) cams) =
  set_timers (drop (length cams) (timers s)) s.
Proof.
  revert s. induction cams as [|cam cams IH]; intros s Hr.
  - cbn. apply radar_ext; reflexivity.
  - unfold mainloop in *. cbn [map fold_left length].
    rewrite (stopped_timer_fires s cam Hr).
    rewrite IH by exact Hr.
    cbn [timers set_timers]. rewrite drop_drop.
    apply radar_ext; reflexivity.
Qed.

(** A tick of a running radar with one pending timer, amplitude not zero:
    the cursor advances by the sweep and one timer is pending again. *)
Lemma running_timer_fires s cam t :
  running s = true -> wf s -> amplitude_var s <> 0 -> timers s = [t] ->
  let s' := handle s (TimerFires 0 cam) in
  running s' = true /\ wf s' /\
  amplitude_var s' = amplitude_var s /\ sweep_var s' = sweep_var s /\
  timers s' = [interval_var s] /\
  angle s' = (angle s + sweep_var s) mod 360.
Proof.
  intros Hr Hwf Hamp Ht s'. unfold s'. cbn [handle]. rewrite Ht.
  cbn [lookup list_lookup delete list_delete].
  set (s0 := set_timers [] s).
  assert (Hwf0 : wf s0) by exact Hwf.
  rewrite (update_running cam s0 _ Hr Hamp (wf_setitem s0 _ Hwf0)).
  cbn [fst running amplitude_var sweep_var timers angle].
  repeat split.
  - cbn [angle]. pose proof (Z.mod_pos_bound (angle s0 + sweep_var s0) 360). lia.
  - cbn [angle]. pose proof (Z.mod_pos_bound (angle s0 + sweep_var s0) 360). lia.
  - cbn [readings]. rewrite length_insert. now destruct Hwf.
Qed.

Lemma running_timers_fire cams s t :
  running s = true -> wf s -> amplitude_var s <> 0 -> timers s = [t] ->
  let s' := mainloop s (map (TimerFires 0) cams) in
  running s' = true /\ wf s' /\ length (timers s') = 1%nat /\
  angle s' = (angle s + Z.of_nat (length cams) * sweep_var s) mod 360.
Proof.
  revert s t. induction cams as [|cam cams IH]; intros s t Hr Hwf Hamp Ht.
  - cbn. rewrite Ht. repeat split; try assumption; try apply Hwf.
    rewrite Z.add_0_r. symmetry. apply Z.mod_small. destruct Hwf. lia.
  - destruct (running_timer_fires s cam t Hr Hwf Hamp Ht)
      as (Hr1 & Hwf1 & Ha1 & Hs1 & Ht1 & Hang1).
    unfold mainloop in *. cbn [map fold_left length].
    destruct (IH (handle s (TimerFires 0 cam)) (interval_var s) Hr1 Hwf1
                 ltac:(now rewrite Ha1) Ht1) as (Hr2 & Hwf2 & Ht2 & Hang2).
    repeat split; try assumption; try apply Hwf2.
    rewrite Hang2, Hang1, Hs1, Zplus_mod_idemp_l. f_equal. lia.
Qed.

End RunFacts.

(** X10. A tick of a running radar writes one slot of the buffer, the one
    at the cursor, with the reading of the camera; every other slot keeps
    its value and the buffer keeps its 360 slots. *)
Theorem X10_tick_writes_one_slot :
  forall (s : Radar.RadarLuxCam) (cam : Radar.CamRead),
    Radar.running s = true ->
    Radar.wf s ->
    exists lux : Q,
      Radar._read_lux_from_camera cam s = (s, Radar.Ok lux) /\
      Radar.readings (fst (Radar._update cam s)) !! Z.to_nat (Radar.angle s)
        = Some lux /\
      (forall j : nat,
          j <> Z.to_nat (Radar.angle s) ->
          Radar.readings (fst (Radar._update cam s)) !! j = Radar.readings s !! j) /\
      length (Radar.readings (fst (Radar._update cam s))) = 360.
Proof.
  intros s cam Hr Hwf.
  exists (Radar.lux_read cam (Radar.amplitude_var s)).
  split; [apply read_lux_eq|].
  destruct (update_running_frame cam s _ Hr (wf_setitem s _ Hwf))
    as (c & a & ts & r & -> & _).
  cbn [fst Radar.readings]. destruct Hwf as [Ha Hl].
  split; [|split].
  - apply list_lookup_insert_eq. lia.
  - intros j Hj. apply list_lookup_insert_ne. congruence.
  - now rewrite length_insert.
Qed.

Lemma X10_witness :
  Radar.running (Radar.set_running true Radar.initial) = true /\
  exists lux : Q,
    Radar._read_lux_from_camera (Radar.mkCamRead true 128)
      (Radar.set_running true Radar.initial)
    = (Radar.set_running true Radar.initial, Radar.Ok lux) /\
    Radar.readings
      (fst (Radar._update (Radar.mkCamRead true 128)
                          (Radar.set_running true Radar.initial)))
      !! Z.to_nat (Radar.angle (Radar.set_running true Radar.initial))
    = Some lux.
Proof.
  split; [reflexivity|].
  destruct (X10_tick_writes_one_slot (Radar.set_running true Radar.initial)
              (Radar.mkCamRead true 128) eq_refl
              (wf_set_running true Radar.initial wf_initial))
    as (lux & Hread & Hslot & _).
  exists lux. split; [exact Hread|exact Hslot].
Defined.

(** X11. A tick of a running radar whose amplitude is not zero redraws the
    whole dynamic layer: afterwards the dynamic items are the points of the
    positive readings of the buffer as the tick left it, followed by the
    beam at the angle where the cursor was, whatever was drawn before; the
    other items of the canvas are as they were. *)
Theorem X11_tick_redraws_the_dynamic_layer :
  forall (s : Radar.RadarLuxCam) (cam : Radar.CamRead),
    Radar.running s = true ->
    Radar.wf s ->
    Radar.amplitude_var s <> 0%Z ->
    Radar.dynamic_items (fst (Radar._update cam s)) =
    Radar.points_of (Radar.amplitude_var s)
      (Radar.enumerate (Radar.readings (fst (Radar._update cam s)))) ++
    [Radar.beam_item (Radar.angle s)] /\
    Radar.static_items (fst (Radar._update cam s)) = Radar.static_items s /\
    Radar.canvas (fst (Radar._update cam s)) =
    Radar.static_items s ++ Radar.dynamic_items (fst (Radar._update cam s)).
Proof.
  intros s cam Hr Hwf Hamp.
  assert (Hdyn : Radar.dynamic_items (fst (Radar._update cam s)) =
                 Radar.points_of (Radar.amplitude_var s)
                   (Radar.enumerate (Radar.readings (fst (Radar._update cam s)))) ++
                 [Radar.beam_item (Radar.angle s)]).
  { rewrite (update_running cam s _ Hr Hamp (wf_setitem s _ Hwf)).
    unfold Radar.dynamic_items. cbn [fst Radar.canvas Radar.readings].
    rewrite !List.filter_app.
    rewrite (filter_negb_none (Radar.has_tag "dynamic")).
    rewrite (filter_all _ _ (points_of_dynamic _ _)). reflexivity. }
  split; [exact Hdyn|]. split; [apply update_static|].
  rewrite Hdyn.
  rewrite (update_running cam s _ Hr Hamp (wf_setitem s _ Hwf)).
  cbn [fst Radar.canvas Radar.readings]. unfold Radar.static_items.
  now rewrite app_assoc.
Qed.

Lemma X11_witness :
  Radar.running (Radar.set_running true Radar.initial) = true /\
  Radar.static_items
    (fst (Radar._update (Radar.mkCamRead true 128)
                        (Radar.set_running true Radar.initial)))
  = Radar.static_items (Radar.set_running true Radar.initial).
Proof.
  split; [reflexivity|].
  assert (Hamp : Radar.amplitude_var (Radar.set_running true Radar.initial) <> 0%Z).
  { change (Radar.amplitude_var (Radar.set_running true Radar.initial)) with 1000%Z.
    discriminate. }
  exact (proj1 (proj2 (X11_tick_redraws_the_dynamic_layer
                         (Radar.set_running true Radar.initial)
                         (Radar.mkCamRead true 128) eq_refl
                         (wf_set_running true Radar.initial wf_initial) Hamp))).
Defined.

(** X12. On a running radar with one pending timer and an amplitude that
    is not zero, after the timer has fired [n] times in a row, each tick
    scheduling the next, the cursor is at [(angle + n * sweep) mod 360], the
    radar still runs and one timer is pending. *)
Theorem X12_cursor_after_n_ticks :
  forall (s : Radar.RadarLuxCam) (cams : list Radar.CamRead) (t : Z),
    Radar.running s = true ->
    Radar.wf s ->
    Radar.amplitude_var s <> 0%Z ->
    Radar.timers s = [t] ->
    Radar.angle (Radar.mainloop s (map (Radar.TimerFires 0) cams)) =
    ((Radar.angle s + Z.of_nat (length cams) * Radar.sweep_var s) mod 360)%Z /\
    Radar.running (Radar.mainloop s (map (Radar.TimerFires 0) cams)) = true /\
    length (Radar.timers (Radar.mainloop s (map (Radar.TimerFires 0) cams))) = 1.
Proof.
  intros s cams t Hr Hwf Hamp Ht.
  destruct (running_timers_fire cams s t Hr Hwf Hamp Ht) as (Hr' & _ & Ht' & Ha').
  now repeat split.
Qed.

Lemma X12_witness :
  Radar.running (fst (Radar.start Radar.initial)) = true /\
  Radar.timers (fst (Radar.start Radar.initial)) = [60%Z] /\
  Radar.angle
    (Radar.mainloop (fst (Radar.start Radar.initial))
       (map (Radar.TimerFires 0)
            [Radar.mkCamRead true 128; Radar.mkCamRead false 0;
             Radar.mkCamRead true 64]))
  = ((Radar.angle (fst (Radar.start Radar.initial))
      + Z.of_nat 3 * Radar.sweep_var (fst (Radar.start Radar.initial))) mod 360)%Z.
Proof.
  split; [reflexivity|]. split; [reflexivity|].
  assert (Hamp : Radar.amplitude_var (fst (Radar.start Radar.initial)) <> 0%Z).
  { change (Radar.amplitude_var (fst (Radar.start Radar.initial))) with 1000%Z.
    discriminate. }
  exact (proj1 (X12_cursor_after_n_ticks (fst (Radar.start Radar.initial))
                  [Radar.mkCamRead true 128; Radar.mkCamRead false 0;
                   Radar.mkCamRead true 64] 60%Z eq_refl
                  (handle_wf Radar.initial Radar.PressStart wf_initial)
                  Hamp eq_refl)).
Defined.

(** X13. [stop] ends the loop: after it, a timer that fires reads no
    frame and writes nothing, it only disappears without scheduling
    another, so when the timers that were pending have fired none is left,
    and the readings, the cursor, the label and the canvas are as they were
    when [stop] was called. *)
Theorem X13_stop_ends_the_loop :
  forall (s : Radar.RadarLuxCam) (cams : list Radar.CamRead),
    Radar.mainloop (fst (Radar.stop s)) (map (Radar.TimerFires 0) cams) =
    Radar.set_timers (drop (length cams) (Radar.timers s))
                     (Radar.set_running false s) /\
    (length (Radar.timers s) <= length cams ->
     Radar.timers
       (Radar.mainloop (fst (Radar.stop s)) (map (Radar.TimerFires 0) cams)) = []).
Proof.
  intros s cams. rewrite stop_eq. cbn [fst].
  rewrite stopped_timers_fire by reflexivity.
  split; [reflexivity|].
  intros Hlen. cbn [Radar.timers Radar.set_timers Radar.set_running].
  now apply drop_ge.
Qed.

Lemma X13_witness :
  length (Radar.timers (fst (Radar.start Radar.initial)))
  <= length [Radar.mkCamRead true 128] /\
  Radar.timers
    (Radar.mainloop (fst (Radar.stop (fst (Radar.start Radar.initial))))
       (map (Radar.TimerFires 0) [Radar.mkCamRead true 128])) = [].
Proof.
  assert (Hlen : length (Radar.timers (fst (Radar.start Radar.initial)))
                 <= length [Radar.mkCamRead true 128]).
  { change (Radar.timers (fst (Radar.start Radar.initial))) with [60%Z].
    simpl. lia. }
  split; [exact Hlen|].
  exact (proj2 (X13_stop_ends_the_loop (fst (Radar.start Radar.initial))
                  [Radar.mkCamRead true 128]) Hlen).
Defined.

(** X14. In every window that the main loop can reach from the initial
    one, whatever buttons are pressed, whatever values the scales are moved
    to and whatever the camera gives, the cursor is an integer from 0 to 359
    and the buffer holds exactly 360 readings. *)
Theorem X14_invariant_in_every_reachable_window :
  forall es : list Radar.Event,
    (0 <= Radar.angle (Radar.mainloop Radar.initial es) <= 359)%Z /\
    length (Radar.readings (Radar.mainloop Radar.initial es)) = 360.
Proof.
  intros es. exact (mainloop_wf es Radar.initial wf_initial).
Qed.

(** X15. As long as the scales are moved within their ranges (amplitude
    100 to 5000, sweep 1 to 10, interval 20 to 200), the three variables
    stay within these ranges in every window that the main loop reaches,
    and a tick on such a window raises no exception, whatever the camera
    gives. *)
Theorem X15_ticks_never_raise_within_ui_ranges :
  forall (es : list Radar.Event) (cam : Radar.CamRead),
    Forall Radar.ui_event es ->
    (100 <= Radar.amplitude_var (Radar.mainloop Radar.initial es) <= 5000)%Z /\
    (1 <= Radar.sweep_var (Radar.mainloop Radar.initial es) <= 10)%Z /\
    (20 <= Radar.interval_var (Radar.mainloop Radar.initial es) <= 200)%Z /\
    snd (Radar._update cam (Radar.mainloop Radar.initial es)) = Radar.Ok tt.
Proof.
  intros es cam Hes.
  assert (Hv : (100 <= Radar.amplitude_var (Radar.mainloop Radar.initial es) <= 5000)%Z /\
               (1 <= Radar.sweep_var (Radar.mainloop Radar.initial es) <= 10)%Z /\
               (20 <= Radar.interval_var (Radar.mainloop Radar.initial es) <= 200)%Z).
  { apply mainloop_vars; [exact Hes| | |].
    - change (Radar.amplitude_var Radar.initial) with 1000%Z. lia.
    - change (Radar.sweep_var Radar.initial) with 2%Z. lia.
    - change (Radar.interval_var Radar.initial) with 60%Z. lia. }
  destruct Hv as (Ha & Hs & Hi). repeat split; try lia.
  apply update_ok; [apply mainloop_wf, wf_initial|lia].
Qed.

Lemma X15_witness :
  Forall Radar.ui_event [Radar.PressStart; Radar.MoveAmplitude 100] /\
  snd (Radar._update (Radar.mkCamRead true 255)
         (Radar.mainloop Radar.initial
            [Radar.PressStart; Radar.MoveAmplitude 100])) = Radar.Ok tt.
Proof.
  assert (Hes : Forall Radar.ui_event [Radar.PressStart; Radar.MoveAmplitude 100]).
  { repeat constructor; simpl; lia. }
  split; [exact Hes|].
  exact (proj2 (proj2 (proj2 (X15_ticks_never_raise_within_ui_ranges
                                [Radar.PressStart; Radar.MoveAmplitude 100]
                                (Radar.mkCamRead true 255) Hes)))).
Defined.

(** X16. [reset] on any window that the main loop can reach from the
    initial one gives back the picture and the data of the start: the
    canvas holds the grid alone, the buffer holds 360 zeros and the cursor
    is at angle 0, as in the initial window. *)
Theorem X16_reset_restores_the_initial_picture :
  forall es : list Radar.Event,
    Radar.canvas (fst (Radar.reset (Radar.mainloop Radar.initial es))) =
    Radar.canvas Radar.initial /\
    Radar.readings (fst (Radar.reset (Radar.mainloop Radar.initial es))) =
    Radar.readings Radar.initial /\
    Radar.angle (fst (Radar.reset (Radar.mainloop Radar.initial es))) =
    Radar.angle Radar.initial.
Proof.
  intros es. rewrite reset_eq. cbn [fst Radar.canvas Radar.readings Radar.angle].
  split; [|split; reflexivity].
  change (List.filter (fun it => negb (Radar.has_tag "dynamic" it))
            (Radar.canvas (Radar.mainloop Radar.initial es)))
    with (Radar.static_items (Radar.mainloop Radar.initial es)).
  rewrite mainloop_static. reflexivity.
Qed.

(** X18. [_draw_points] draws nothing for a reading that is not positive:
    for an amplitude that is not zero it raises nothing, writes to the
    canvas only, and every item that it adds is the dynamic point of a
    stored reading above zero, at the angle of its slot. *)
Theorem X18_points_only_for_positive_readings :
  forall (s : Radar.RadarLuxCam) (it : Radar.item),
    Radar.amplitude_var s <> 0%Z ->
    snd (Radar._draw_points s) = Radar.Ok tt /\
    (exists extra : list Radar.item,
        fst (Radar._draw_points s) =
        Radar.set_canvas (Radar.canvas s ++ extra) s /\
        (In it extra ->
         Radar.has_tag "dynamic" it = true /\
         exists (a : nat) (m : Q),
           Radar.readings s !! a = Some m /\ (0 < m)%Q /\
           it = Radar.point_item (Radar.point_x (Radar.amplitude_var s) a m)
                                 (Radar.point_y (Radar.amplitude_var s) a m)
                                 (Radar.colour_of_green
                                    (Radar.green (Radar.amplitude_var s) m)))).
Proof.
  intros s it Hamp. rewrite (draw_points_eq s Hamp). cbn [fst snd].
  split; [reflexivity|].
  exists (Radar.points_of (Radar.amplitude_var s)
                          (Radar.enumerate (Radar.readings s))).
  split; [reflexivity|].
  intros Hin.
  destruct (points_of_positive _ _ _ Hin) as (a & m & Hrs & Hm & ->).
  split; [reflexivity|].
  exists a, m. split; [now apply enumerate_In|]. now split.
Qed.

Lemma X18_witness :
  Radar.amplitude_var Radar.initial <> 0%Z /\
  snd (Radar._draw_points Radar.initial) = Radar.Ok tt.
Proof.
  assert (Hamp : Radar.amplitude_var Radar.initial <> 0%Z).
  { change (Radar.amplitude_var Radar.initial) with 1000%Z. discriminate. }
  split; [exact Hamp|].
  exact (proj1 (X18_points_only_for_positive_readings Radar.initial
                  (Radar.beam_item 0) Hamp)).
Defined.
